(** * react-card-effects: the [App] component of src/App.js

    The component keeps eight [useState] cells and two [useRef] cells, talks
    to the deck-of-cards HTTP API through [fetch], and drives automatic
    drawing with [setInterval] and the error banner with [setTimeout].

    The embedding is a state record holding the hook cells, the two refs and
    the part of the browser the handlers act on (the table of live timers,
    the timer-id counter, the log of issued requests and the requests still
    in flight).  Every handler of the source is a function on that record.
    An [async] handler is split at its [await]: the part before it, which
    issues the request, and the continuation that runs when the request
    settles.  Numbers are integers ([Z]); time is not modelled, a timer
    records the delay it was created with. *)

From stdpp Require Import gmap strings list.
From Stdlib Require Import ZArith.

Local Open Scope Z_scope.

(** ** Data *)

(** Timer handles as [setInterval] and [setTimeout] return them: positive
    integers drawn from one counter, so a handle is truthy exactly when the
    ref holding it is not [null]. *)
Abbreviation timer_id := positive.

(** What a [drawCard] function value closes over.  Each render creates a new
    [drawCard] that reads the [deckId] and [remaining] of that render; the
    setters and the refs are the same objects in every render. *)
Record closure := {
  c_deckId : option string;
  c_remaining : Z
}.

(** A live timer: a repeating one created by [setInterval(drawCard, d)]
    (the callback is the [drawCard] of the render that created it) or a
    one-shot one created by [setTimeout(() => setErrorMessageVisible(false), d)]
    (the only [setTimeout] callback of the component). *)
Inductive timer :=
| Interval (delay : Z) (callback : closure)
| Timeout (delay : Z).

(** The continuation of an [async] handler that waits for its request. *)
Inductive kont := KFetchDeck | KDrawCard | KShuffleDeck.

(** How [await fetch(..)] followed by [await response.json()] settles:
    either of the two promises rejects (network failure, body that is not
    JSON), or the body parses to [data].  [data] is [None] for the JSON
    value [null], on which a property access throws a [TypeError]. *)
Inductive fetch_result (A : Type) :=
| Rejected
| Resolved (data : option A).
Arguments Rejected {A}.
Arguments Resolved {A} data.

(** Bodies of the three endpoints, at the fields the component reads. *)
Record deck_data := { deck_id : string; deck_remaining : Z }.
Record card := { image : string }.
(** [cards] is [None] when the body has no [cards] property. *)
Record draw_data := { cards : option (list card); draw_remaining : Z }.
Record shuffle_data := { shuffle_remaining : Z }.

Record state := {
  (* useState, lines 12-19 *)
  deckId : option string;
  remaining : Z;
  cardImage : option string;
  error : option string;
  errorMessageVisible : bool;
  isShuffling : bool;
  isDrawing : bool;
  shuffleSpeed : Z;
  (* useRef, lines 20-21: the [.current] of each ref *)
  intervalRef : option timer_id;
  errorTimeoutRef : option timer_id;
  (* browser *)
  timers : gmap positive timer;
  next_timer : timer_id;
  requests : list string;
  inflight : list kont
}.

(** The values of the first render (lines 12-21), before the effect runs. *)
Definition initial : state := {|
  deckId := None; remaining := 0; cardImage := None; error := None;
  errorMessageVisible := false; isShuffling := false; isDrawing := false;
  shuffleSpeed := 1000;
  intervalRef := None; errorTimeoutRef := None;
  timers := ∅; next_timer := 1%positive; requests := []; inflight := []
|}.

(** ** Setters *)

Definition setDeckId (v : option string) (s : state) : state := {|
  deckId := v; remaining := remaining s; cardImage := cardImage s;
  error := error s; errorMessageVisible := errorMessageVisible s;
  isShuffling := isShuffling s; isDrawing := isDrawing s;
  shuffleSpeed := shuffleSpeed s; intervalRef := intervalRef s;
  errorTimeoutRef := errorTimeoutRef s; timers := timers s;
  next_timer := next_timer s; requests := requests s; inflight := inflight s |}.

Definition setRemaining (v : Z) (s : state) : state := {|
  deckId := deckId s; remaining := v; cardImage := cardImage s;
  error := error s; errorMessageVisible := errorMessageVisible s;
  isShuffling := isShuffling s; isDrawing := isDrawing s;
  shuffleSpeed := shuffleSpeed s; intervalRef := intervalRef s;
  errorTimeoutRef := errorTimeoutRef s; timers := timers s;
  next_timer := next_timer s; requests := requests s; inflight := inflight s |}.

Definition setCardImage (v : option string) (s : state) : state := {|
  deckId := deckId s; remaining := remaining s; cardImage := v;
  error := error s; errorMessageVisible := errorMessageVisible s;
  isShuffling := isShuffling s; isDrawing := isDrawing s;
  shuffleSpeed := shuffleSpeed s; intervalRef := intervalRef s;
  errorTimeoutRef := errorTimeoutRef s; timers := timers s;
  next_timer := next_timer s; requests := requests s; inflight := inflight s |}.

Definition setError (v : option string) (s : state) : state := {|
  deckId := deckId s; remaining := remaining s; cardImage := cardImage s;
  error := v; errorMessageVisible := errorMessageVisible s;
  isShuffling := isShuffling s; isDrawing := isDrawing s;
  shuffleSpeed := shuffleSpeed s; intervalRef := intervalRef s;
  errorTimeoutRef := errorTimeoutRef s; timers := timers s;
  next_timer := next_timer s; requests := requests s; inflight := inflight s |}.

Definition setErrorMessageVisible (v : bool) (s : state) : state := {|
  deckId := deckId s; remaining := remaining s; cardImage := cardImage s;
  error := error s; errorMessageVisible := v;
  isShuffling := isShuffling s; isDrawing := isDrawing s;
  shuffleSpeed := shuffleSpeed s; intervalRef := intervalRef s;
  errorTimeoutRef := errorTimeoutRef s; timers := timers s;
  next_timer := next_timer s; requests := requests s; inflight := inflight s |}.

Definition setIsShuffling (v : bool) (s : state) : state := {|
  deckId := deckId s; remaining := remaining s; cardImage := cardImage s;
  error := error s; errorMessageVisible := errorMessageVisible s;
  isShuffling := v; isDrawing := isDrawing s;
  shuffleSpeed := shuffleSpeed s; intervalRef := intervalRef s;
  errorTimeoutRef := errorTimeoutRef s; timers := timers s;
  next_timer := next_timer s; requests := requests s; inflight := inflight s |}.

Definition setIsDrawing (v : bool) (s : state) : state := {|
  deckId := deckId s; remaining := remaining s; cardImage := cardImage s;
  error := error s; errorMessageVisible := errorMessageVisible s;
  isShuffling := isShuffling s; isDrawing := v;
  shuffleSpeed := shuffleSpeed s; intervalRef := intervalRef s;
  errorTimeoutRef := errorTimeoutRef s; timers := timers s;
  next_timer := next_timer s; requests := requests s; inflight := inflight s |}.

Definition setShuffleSpeed (v : Z) (s : state) : state := {|
  deckId := deckId s; remaining := remaining s; cardImage := cardImage s;
  error := error s; errorMessageVisible := errorMessageVisible s;
  isShuffling := isShuffling s; isDrawing := isDrawing s;
  shuffleSpeed := v; intervalRef := intervalRef s;
  errorTimeoutRef := errorTimeoutRef s; timers := timers s;
  next_timer := next_timer s; requests := requests s; inflight := inflight s |}.

(** [intervalRef.current = v] and [errorTimeoutRef.current = v]. *)
Definition setIntervalRef (v : option timer_id) (s : state) : state := {|
  deckId := deckId s; remaining := remaining s; cardImage := cardImage s;
  error := error s; errorMessageVisible := errorMessageVisible s;
  isShuffling := isShuffling s; isDrawing := isDrawing s;
  shuffleSpeed := shuffleSpeed s; intervalRef := v;
  errorTimeoutRef := errorTimeoutRef s; timers := timers s;
  next_timer := next_timer s; requests := requests s; inflight := inflight s |}.

Definition setErrorTimeoutRef (v : option timer_id) (s : state) : state := {|
  deckId := deckId s; remaining := remaining s; cardImage := cardImage s;
  error := error s; errorMessageVisible := errorMessageVisible s;
  isShuffling := isShuffling s; isDrawing := isDrawing s;
  shuffleSpeed := shuffleSpeed s; intervalRef := intervalRef s;
  errorTimeoutRef := v; timers := timers s;
  next_timer := next_timer s; requests := requests s; inflight := inflight s |}.

Definition with_timers (m : gmap positive timer) (n : timer_id) (s : state) : state := {|
  deckId := deckId s; remaining := remaining s; cardImage := cardImage s;
  error := error s; errorMessageVisible := errorMessageVisible s;
  isShuffling := isShuffling s; isDrawing := isDrawing s;
  shuffleSpeed := shuffleSpeed s; intervalRef := intervalRef s;
  errorTimeoutRef := errorTimeoutRef s; timers := m;
  next_timer := n; requests := requests s; inflight := inflight s |}.

Definition with_network (reqs : list string) (ks : list kont) (s : state) : state := {|
  deckId := deckId s; remaining := remaining s; cardImage := cardImage s;
  error := error s; errorMessageVisible := errorMessageVisible s;
  isShuffling := isShuffling s; isDrawing := isDrawing s;
  shuffleSpeed := shuffleSpeed s; intervalRef := intervalRef s;
  errorTimeoutRef := errorTimeoutRef s; timers := timers s;
  next_timer := next_timer s; requests := reqs; inflight := ks |}.

(** ** Browser primitives *)

(** [setInterval(cb, d)] and [setTimeout(.., d)]: register a timer under a
    fresh handle and return the handle. *)
Definition setInterval (cb : closure) (d : Z) (s : state) : timer_id * state :=
  (next_timer s,
   with_timers (<[next_timer s := Interval d cb]> (timers s)) (Pos.succ (next_timer s)) s).

Definition setTimeout (d : Z) (s : state) : timer_id * state :=
  (next_timer s,
   with_timers (<[next_timer s := Timeout d]> (timers s)) (Pos.succ (next_timer s)) s).

(** [clearInterval(h)] and [clearTimeout(h)] are the same operation in a
    browser: the timer with that handle, if any, is removed; [null] and
    handles of timers that are gone are ignored. *)
Definition clearTimer (h : option timer_id) (s : state) : state :=
  match h with
  | Some id => with_timers (delete id (timers s)) (next_timer s) s
  | None => s
  end.
Definition clearInterval := clearTimer.
Definition clearTimeout := clearTimer.

(** [fetch(url)]: the request is logged, newest last. *)
Definition fetch (url : string) (s : state) : state :=
  with_network (requests s ++ [url]) (inflight s) s.

(** A template literal prints [null] for a [deckId] that is still unset. *)
Definition show_deckId (d : option string) : string :=
  match d with Some x => x | None => "null" end.

Definition new_deck_url : string :=
  "https://deckofcardsapi.com/api/deck/new/shuffle/?deck_count=1".
Definition draw_url (d : option string) : string :=
  "https://deckofcardsapi.com/api/deck/" +:+ show_deckId d +:+ "/draw/?count=1".
Definition shuffle_url (d : option string) : string :=
  "https://deckofcardsapi.com/api/deck/" +:+ show_deckId d +:+ "/shuffle/".

(** ** Control flow of the handlers *)

(** An [async] function either returns without awaiting or suspends on a
    request with continuation [k]. *)
Inductive async :=
| Returned (s : state)
| Awaiting (k : kont) (s : state).

(** A [try] body either runs to its end or throws; the state changes made
    before the throw are kept. *)
Inductive completion :=
| Normal (s : state)
| Thrown (s : state).

Definition try_catch (body : completion) (handler : state -> state) : state :=
  match body with
  | Normal s => s
  | Thrown s => handler s
  end.

(** ** The component *)

(** The [drawCard] created by the render of state [s]. *)
Definition render (s : state) : closure :=
  {| c_deckId := deckId s; c_remaining := remaining s |}.

(** The callback of every [setTimeout] of the component (lines 50-52,
    72-74, 83-85). *)
Definition hideError (s : state) : state := setErrorMessageVisible false s.

(** [fetchDeck], lines 24-34, run once by the effect of line 23. *)
Definition fetchDeck_start (s : state) : async :=
  Awaiting KFetchDeck (fetch new_deck_url s).

Definition fetchDeck_resume (r : fetch_result deck_data) (s : state) : state :=
  try_catch
    match r with
    | Rejected => Thrown s
    | Resolved None => Thrown s                       (* [data.deck_id] on [null] *)
    | Resolved (Some data) =>
        let s := setDeckId (Some (deck_id data)) s in
        let s := setRemaining (deck_remaining data) s in
        Normal s
    end
    (fun s => setError (Some "Failed to fetch deck.") s).

(** [drawCard], lines 42-93.  [c] is the render the function value belongs
    to: line 43 and the URL of line 57 read [c], everything else acts on the
    current state. *)
Definition drawCard_start (c : closure) (s : state) : async :=
  if c_remaining c =? 0 then
    let s := setError (Some "Error: no cards remaining!") s in
    let s := setErrorMessageVisible true s in
    let s := setIsDrawing false s in
    let s := clearInterval (intervalRef s) s in
    let s := setIntervalRef None s in
    let s := clearTimeout (errorTimeoutRef s) s in
    let '(id, s) := setTimeout 3000 s in
    let s := setErrorTimeoutRef (Some id) s in
    Returned s
  else
    Awaiting KDrawCard (fetch (draw_url (c_deckId c)) s).

Definition drawCard_resume (r : fetch_result draw_data) (s : state) : state :=
  try_catch
    match r with
    | Rejected => Thrown s
    | Resolved None =>
        (* line 60 is falsy on [null]; line 65 reads [data.cards] and throws *)
        Thrown s
    | Resolved (Some data) =>
        match cards data with
        | Some (c0 :: _) =>                            (* line 60 *)
            let s := setCardImage (Some (image c0)) s in
            let s := setRemaining (draw_remaining data) s in
            Normal s
        | None =>                                      (* line 65 *)
            let s := setError (Some "Error: Invalid API response.") s in
            let s := setErrorMessageVisible true s in
            let s := clearInterval (intervalRef s) s in
            let s := setIntervalRef None s in
            let s := clearTimeout (errorTimeoutRef s) s in
            let '(id, s) := setTimeout 3000 s in
            let s := setErrorTimeoutRef (Some id) s in
            Normal s
        | Some [] =>                                   (* line 75 *)
            let s := setError (Some "Error: No cards available.") s in
            let s := setErrorMessageVisible true s in
            let s := setIsDrawing false s in
            let s := clearInterval (intervalRef s) s in
            let s := setIntervalRef None s in
            let s := clearTimeout (errorTimeoutRef s) s in
            let '(id, s) := setTimeout 3000 s in
            let s := setErrorTimeoutRef (Some id) s in
            Normal s
        end
    end
    (fun s => setError (Some "Failed to draw card.") s).

(** [shuffleDeck], lines 98-111.  It is a click handler, so it runs in the
    current render. *)
Definition shuffleDeck_start (s : state) : async :=
  let s := setIsShuffling true s in
  Awaiting KShuffleDeck (fetch (shuffle_url (deckId s)) s).

Definition shuffleDeck_resume (r : fetch_result shuffle_data) (s : state) : state :=
  try_catch
    match r with
    | Rejected => Thrown s
    | Resolved None => Thrown s                       (* [data.remaining] on [null] *)
    | Resolved (Some data) =>
        let s := setRemaining (shuffle_remaining data) s in
        let s := setCardImage None s in
        let s := setIsShuffling false s in
        Normal s
    end
    (fun s =>
       let s := setError (Some "Failed to shuffle deck.") s in
       setIsShuffling false s).

(** [handleDraw], lines 116-125. *)
Definition handleDraw (s : state) : state :=
  match intervalRef s with
  | Some id =>
      let s := clearInterval (Some id) s in
      let s := setIntervalRef None s in
      setIsDrawing false s
  | None =>
      let '(id, s') := setInterval (render s) 1000 s in
      let s' := setIntervalRef (Some id) s' in
      setIsDrawing true s'
  end.

(** [handleShuffleSpeed], lines 130-132. *)
Definition handleShuffleSpeed (s : state) : state :=
  setShuffleSpeed (if shuffleSpeed s =? 1000 then 500 else 1000) s.

(** *** Whole operations

    An operation whose request settles before anything else happens: the
    part before the [await] followed at once by the continuation. *)
Definition drawCard (c : closure) (r : fetch_result draw_data) (s : state) : state :=
  match drawCard_start c s with
  | Returned s' => s'
  | Awaiting _ s' => drawCard_resume r s'
  end.

Definition shuffleDeck (r : fetch_result shuffle_data) (s : state) : state :=
  match shuffleDeck_start s with
  | Returned s' => s'
  | Awaiting _ s' => shuffleDeck_resume r s'
  end.

Definition fetchDeck (r : fetch_result deck_data) (s : state) : state :=
  match fetchDeck_start s with
  | Returned s' => s'
  | Awaiting _ s' => fetchDeck_resume r s'
  end.

(** ** The event loop

    Between two events the component is idle; an event runs one handler to
    its end or to its [await].  Requests that were issued and have not
    settled wait in [inflight]; they may settle in any order, and any other
    event may come in between. *)

(** Run the synchronous part of an [async] handler and park its request. *)
Definition launch (a : async) : state :=
  match a with
  | Returned s => s
  | Awaiting k s => with_network (requests s) (inflight s ++ [k]) s
  end.

(** The state after the first render and its effect (line 36). *)
Definition mounted : state := launch (fetchDeck_start initial).

(** Line 140: the buttons exist only while [deckId] is truthy. *)
Definition controls_rendered (s : state) : bool :=
  match deckId s with
  | Some (String _ _) => true
  | Some EmptyString => false
  | None => false
  end.

Definition kont_eqb (a b : kont) : bool :=
  match a, b with
  | KFetchDeck, KFetchDeck | KDrawCard, KDrawCard | KShuffleDeck, KShuffleDeck => true
  | _, _ => false
  end.

(** Remove the oldest waiting request of kind [k], if there is one. *)
Fixpoint take (k : kont) (ks : list kont) : option (list kont) :=
  match ks with
  | [] => None
  | k' :: ks' =>
      if kont_eqb k k' then Some ks'
      else match take k ks' with
           | Some r => Some (k' :: r)
           | None => None
           end
  end.

Inductive event :=
| ClickDraw                                   (* line 142 *)
| ClickShuffle                                (* line 145 *)
| ClickSpeed                                  (* line 148 *)
| Fire (id : timer_id)                        (* the timer [id] is due *)
| SettleDeck (r : fetch_result deck_data)
| SettleDraw (r : fetch_result draw_data)
| SettleShuffle (r : fetch_result shuffle_data).

Definition settle (k : kont) (resume : state -> state) (s : state) : state :=
  match take k (inflight s) with
  | Some ks => resume (with_network (requests s) ks s)
  | None => s
  end.

Definition step (s : state) (e : event) : state :=
  match e with
  | ClickDraw => if controls_rendered s then handleDraw s else s
  | ClickShuffle =>
      if controls_rendered s && negb (isShuffling s)      (* [disabled], line 145 *)
      then launch (shuffleDeck_start s) else s
  | ClickSpeed => if controls_rendered s then handleShuffleSpeed s else s
  | Fire id =>
      match timers s !! id with
      | Some (Interval _ cb) => launch (drawCard_start cb s)
      | Some (Timeout _) => hideError (clearTimer (Some id) s)
      | None => s
      end
  | SettleDeck r => settle KFetchDeck (fetchDeck_resume r) s
  | SettleDraw r => settle KDrawCard (drawCard_resume r) s
  | SettleShuffle r => settle KShuffleDeck (shuffleDeck_resume r) s
  end.

Definition run (es : list event) (s : state) : state := fold_left step es s.

(** ** Invariants *)

(** The spec's polling invariant: the handle is set iff the flag is true. *)
Definition polling_inv (s : state) : Prop :=
  is_Some (intervalRef s) <-> isDrawing s = true.

(** The timer table agrees with the two refs. *)
Record timers_ok (s : state) : Prop := {
  ok_fresh : forall id t, timers s !! id = Some t -> (id < next_timer s)%positive;
  ok_iref_fresh : forall id, intervalRef s = Some id -> (id < next_timer s)%positive;
  ok_tref_fresh : forall id, errorTimeoutRef s = Some id -> (id < next_timer s)%positive;
  ok_distinct : forall id, intervalRef s = Some id -> errorTimeoutRef s <> Some id;
  ok_interval : forall id d c,
    timers s !! id = Some (Interval d c) -> intervalRef s = Some id /\ d = 1000;
  ok_timeout : forall id d,
    timers s !! id = Some (Timeout d) -> errorTimeoutRef s = Some id /\ d = 3000;
  ok_iref_live : forall id,
    intervalRef s = Some id -> exists c, timers s !! id = Some (Interval 1000 c)
}.

(** Two groups of lines that the error branches of [drawCard] repeat:
    [clearInterval(intervalRef.current); intervalRef.current = null] and
    [clearTimeout(errorTimeoutRef.current); errorTimeoutRef.current =
    setTimeout(.., 3000)]. *)
Definition stop_polling (s : state) : state :=
  setIntervalRef None (clearInterval (intervalRef s) s).

Definition schedule_hide (s : state) : state :=
  let s := clearTimeout (errorTimeoutRef s) s in
  let '(id, s) := setTimeout 3000 s in
  setErrorTimeoutRef (Some id) s.

(** The banner of line 137 shows [msg]. *)
Definition displays (msg : string) (s : state) : Prop :=
  errorMessageVisible s = true /\ error s = Some msg.

(** A hide timer of 3000 ms is pending, held by [errorTimeoutRef], and it is
    the only pending one-shot timer. *)
Definition hide_scheduled (s : state) : Prop :=
  exists id, errorTimeoutRef s = Some id /\
             timers s !! id = Some (Timeout 3000) /\
             forall j d, timers s !! j = Some (Timeout d) -> j = id.

(** No repeating timer is live. *)
Definition no_interval (s : state) : Prop :=
  forall id d cb, timers s !! id <> Some (Interval d cb).

(** ** What is on screen

    The JSX of lines 134-160, at what depends on the state: the banner of
    lines 137-139 and, when [deckId] is truthy, the three buttons, the card
    and the count of lines 140-158. *)
Record panel := {
  draw_label : string;              (* line 143 *)
  shuffle_disabled : bool;          (* line 145 *)
  speed_label : string;             (* line 149 *)
  card_shown : option string;       (* lines 151-155 *)
  remaining_shown : Z               (* line 156 *)
}.

(** [banner] is [None] when no [<p className="error">] is rendered, and
    [Some e] when it is rendered with the text [e] ([None] for [null]). *)
Record screen := {
  banner : option (option string);
  controls : option panel
}.

Definition view (s : state) : screen := {|
  banner := if errorMessageVisible s then Some (error s) else None;
  controls :=
    if controls_rendered s then
      Some {| draw_label := if isDrawing s then "Stop Drawing" else "Start Drawing";
              shuffle_disabled := isShuffling s;
              speed_label := if shuffleSpeed s =? 1000 then "Fast Shuffle" else "Normal Shuffle";
              card_shown := match cardImage s with
                            | Some (String a b) => Some (String a b)
                            | _ => None
                            end;
              remaining_shown := remaining s |}
    else None
|}.

(** ** Predicates on runs *)

(** The event is a new-deck request resolving to a body. *)
Definition deck_arrives (e : event) : bool :=
  match e with
  | SettleDeck (Resolved (Some _)) => true
  | _ => false
  end.

(** The event is a draw request resolving to a body without [cards]. *)
Definition malformed_draw (e : event) : bool :=
  match e with
  | SettleDraw (Resolved (Some d)) =>
      match cards d with None => true | Some _ => false end
  | _ => false
  end.

(** The [remaining] field of the body an event delivers, if it delivers one. *)
Definition body_remaining (e : event) : option Z :=
  match e with
  | SettleDeck (Resolved (Some d)) => Some (deck_remaining d)
  | SettleDraw (Resolved (Some d)) => Some (draw_remaining d)
  | SettleShuffle (Resolved (Some d)) => Some (shuffle_remaining d)
  | _ => None
  end.

(** How many requests of kind [k] are waiting. *)
Fixpoint waiting (k : kont) (ks : list kont) : nat :=
  match ks with
  | [] => O
  | k' :: ks' => if kont_eqb k k' then S (waiting k ks') else waiting k ks'
  end.

(** The event is a press of the start/stop button. *)
Definition is_click_draw (e : event) : bool :=
  match e with ClickDraw => true | _ => false end.

(** The event settles the new-deck request, one way or the other. *)
Definition is_settle_deck (e : event) : bool :=
  match e with SettleDeck _ => true | _ => false end.

(** A request failed: a promise was rejected or the body is [null]. *)
Definition failed {A : Type} (r : fetch_result A) : Prop :=
  r = Rejected \/ r = Resolved None.

(** From [x] to [y] the timer counter did not go back, and a handle below
    the counter of [x] still names the timer it named in [x], or none. *)
Definition keeps (id : timer_id) (x y : state) : Prop :=
  (next_timer x <= next_timer y)%positive /\
  ((id < next_timer x)%positive ->
   timers y !! id = timers x !! id \/ timers y !! id = None).

(** A URL of the session's deck: the deck id is set and not empty. *)
Definition session_url (s : state) (u : string) : Prop :=
  exists d, deckId s = Some d /\ d <> EmptyString /\
            (u = draw_url (Some d) \/ u = shuffle_url (Some d)).

(** What the runs keep true of the session: the one new-deck request is
    waiting at most once and only while no deck id is stored; a live
    repeating timer means the buttons are on screen; and the [drawCard] of a live
    repeating timer closed over the stored deck id. *)
Record session_ok (s : state) : Prop := {
  so_fetch : (waiting KFetchDeck (inflight s) <= 1)%nat;
  so_deck : deckId s <> None -> waiting KFetchDeck (inflight s) = 0%nat;
  so_closure : forall id d cb,
    timers s !! id = Some (Interval d cb) ->
    c_deckId cb = deckId s /\ controls_rendered s = true
}.

(** ** Sample runs *)

Definition deck52 : fetch_result deck_data :=
  Resolved (Some {| deck_id := "abc"; deck_remaining := 52 |}).

(** A deck was fetched and automatic drawing was started. *)
Definition polling52 : state := run [SettleDeck deck52; ClickDraw] mounted.

(** A deck that the server reports as already empty, with automatic
    drawing started on it. *)
Definition deck0 : fetch_result deck_data :=
  Resolved (Some {| deck_id := "abc"; deck_remaining := 0 |}).
Definition polling0 : state := run [SettleDeck deck0; ClickDraw] mounted.

(** Bodies of the draw endpoint: one card, no [cards] property, no card. *)
Definition one_card : draw_data :=
  {| cards := Some [ {| image := "https://deckofcardsapi.com/static/img/KH.png" |} ];
     draw_remaining := 51 |}.
Definition no_cards_field : draw_data := {| cards := None; draw_remaining := 51 |}.
Definition empty_cards : draw_data := {| cards := Some []; draw_remaining := 0 |}.

(** The banner is up with its hide timer pending (a draw came back with an
    empty card list) and automatic drawing has been started again. *)
Definition banner52 : state :=
  run [Fire 1%positive; SettleDraw (Resolved (Some empty_cards)); ClickDraw] polling52.

(** The shuffle request fails in one of two ways: a promise rejects, or the
    body is [null] and line 103 throws. *)
Definition shuffle_failed (r : fetch_result shuffle_data) : Prop :=
  r = Rejected \/ r = Resolved None.

(** A deck was fetched; nothing else happened. *)
Definition ready52 : state := run [SettleDeck deck52] mounted.

(** Automatic drawing was on and a draw came back without [cards]. *)
Definition after_malformed : state :=
  run [Fire 1%positive; SettleDraw (Resolved (Some no_cards_field))] polling52.

(** The body that delivers the last card of the deck. *)
Definition last_card : draw_data :=
  {| cards := Some [ {| image := "https://deckofcardsapi.com/static/img/2C.png" |} ];
     draw_remaining := 0 |}.

(** Automatic drawing was started on a deck of 52 and a draw has just
    delivered the last card: the stored count is 0, the timer of the start
    click is still running. *)
Definition drained52 : state :=
  run [Fire 1%positive; SettleDraw (Resolved (Some last_card))] polling52.

(** The events that lead from the first render to [banner52]. *)
Definition banner_run : list event :=
  [SettleDeck deck52; ClickDraw; Fire 1%positive;
   SettleDraw (Resolved (Some empty_cards)); ClickDraw].

Example ex_mounted :
  requests mounted = [new_deck_url] /\ inflight mounted = [KFetchDeck].
Proof. split; reflexivity. Qed.

Example ex_polling52 :
  intervalRef polling52 = Some 1%positive /\ isDrawing polling52 = true /\
  timers polling52 !! 1%positive
    = Some (Interval 1000 {| c_deckId := Some "abc"; c_remaining := 52 |}).
Proof. vm_compute. auto. Qed.

(** The interval keeps calling the [drawCard] of the render that started
    it: after a card was drawn and 51 remain, the next tick still asks with
    the closure that saw 52. *)
Example ex_stale_closure :
  let card1 := Resolved (Some {| cards := Some [ {| image := "u" |} ]; draw_remaining := 51 |}) in
  let s := run [Fire 1%positive; SettleDraw card1] polling52 in
  remaining s = 51 /\
  timers s !! 1%positive
    = Some (Interval 1000 {| c_deckId := Some "abc"; c_remaining := 52 |}).
Proof. vm_compute. auto. Qed.

(** ** The handlers as compositions *)

Lemma drawCard_start_eq c s :
  drawCard_start c s =
  if c_remaining c =? 0 then
    Returned (schedule_hide (stop_polling (setIsDrawing false
      (setErrorMessageVisible true (setError (Some "Error: no cards remaining!") s)))))
  else Awaiting KDrawCard (fetch (draw_url (c_deckId c)) s).
Proof. reflexivity. Qed.

Lemma drawCard_resume_malformed d s :
  cards d = None ->
  drawCard_resume (Resolved (Some d)) s =
  schedule_hide (stop_polling
    (setErrorMessageVisible true (setError (Some "Error: Invalid API response.") s))).
Proof. intros H. unfold drawCard_resume. rewrite H. reflexivity. Qed.

Lemma drawCard_resume_empty d s :
  cards d = Some [] ->
  drawCard_resume (Resolved (Some d)) s =
  schedule_hide (stop_polling (setIsDrawing false
    (setErrorMessageVisible true (setError (Some "Error: No cards available.") s)))).
Proof. intros H. unfold drawCard_resume. rewrite H. reflexivity. Qed.

Lemma drawCard_resume_success d c0 rest s :
  cards d = Some (c0 :: rest) ->
  drawCard_resume (Resolved (Some d)) s =
  setRemaining (draw_remaining d) (setCardImage (Some (image c0)) s).
Proof. intros H. unfold drawCard_resume. rewrite H. reflexivity. Qed.

Lemma drawCard_resume_failure r s :
  r = Rejected \/ r = Resolved None ->
  drawCard_resume r s = setError (Some "Failed to draw card.") s.
Proof. intros [-> | ->]; reflexivity. Qed.

(** ** The timer table *)

Lemma timers_ok_initial : timers_ok initial.
Proof. split; simpl; intros; simplify_map_eq. Qed.

(** A step that leaves the refs and the timer table alone keeps them
    consistent. *)
Lemma timers_ok_ext s s' :
  timers s' = timers s -> next_timer s' = next_timer s ->
  intervalRef s' = intervalRef s -> errorTimeoutRef s' = errorTimeoutRef s ->
  timers_ok s -> timers_ok s'.
Proof.
  intros Ht Hn Hi He [H1 H2 H3 H4 H5 H6 H7].
  split; rewrite ?Ht, ?Hn, ?Hi, ?He; assumption.
Qed.

Lemma next_timer_free s : timers_ok s -> timers s !! next_timer s = None.
Proof.
  intros H. destruct (timers s !! next_timer s) eqn:E; [|done].
  apply (ok_fresh _ H) in E. lia.
Qed.

Lemma timers_ok_stop s : timers_ok s -> timers_ok (stop_polling s).
Proof.
  intros [H1 H2 H3 H4 H5 H6 H7]. unfold stop_polling, clearInterval, clearTimer.
  destruct (intervalRef s) as [i|] eqn:Hi; split; simpl; try done.
  - intros id t [_ Ht]%lookup_delete_Some. eauto.
  - intros id d c [Hne Ht]%lookup_delete_Some.
    destruct (H5 _ _ _ Ht) as [Hid _]. congruence.
  - intros id d [_ Ht]%lookup_delete_Some.
    destruct (H6 _ _ Ht) as [-> ->]. done.
Qed.

Lemma stop_polling_no_interval s : timers_ok s -> no_interval (stop_polling s).
Proof.
  intros H id d cb Hl.
  destruct (ok_interval _ (timers_ok_stop s H) _ _ _ Hl) as [Hi _]. discriminate Hi.
Qed.

(** Cancelling the pending hide timer and arming a new one keeps the table
    consistent and leaves the new timer as the only one-shot timer. *)
Lemma timers_ok_schedule_hide s : timers_ok s -> timers_ok (schedule_hide s).
Proof.
  intros H. pose proof (next_timer_free s H) as Hnew.
  destruct H as [H1 H2 H3 H4 H5 H6 H7].
  assert (Hold : forall id t,
    timers (clearTimeout (errorTimeoutRef s) s) !! id = Some t ->
    timers s !! id = Some t /\ errorTimeoutRef s <> Some id).
  { intros id t. unfold clearTimeout, clearTimer.
    destruct (errorTimeoutRef s) as [j|]; simpl; [|done].
    intros [Hne Ht]%lookup_delete_Some. split; [done|congruence]. }
  assert (Hn : next_timer (clearTimeout (errorTimeoutRef s) s) = next_timer s).
  { unfold clearTimeout, clearTimer. by destruct (errorTimeoutRef s). }
  assert (Hi : intervalRef (clearTimeout (errorTimeoutRef s) s) = intervalRef s).
  { unfold clearTimeout, clearTimer. by destruct (errorTimeoutRef s). }
  unfold schedule_hide, setTimeout. rewrite Hn.
  split; simpl; rewrite ?Hi.
  - intros id t [[<- _]|[_ Ht]]%lookup_insert_Some; [lia|].
    apply Hold in Ht as [Ht _]. specialize (H1 _ _ Ht). lia.
  - intros id Hid. specialize (H2 _ Hid). lia.
  - intros id [= <-]. lia.
  - intros id Hid [= <-]. specialize (H2 _ Hid). lia.
  - intros id d c [[_ [=]]|[_ Ht]]%lookup_insert_Some.
    apply Hold in Ht as [Ht _]. eauto.
  - intros id d [[<- [= <-]]|[_ Ht]]%lookup_insert_Some; [done|].
    apply Hold in Ht as [Ht Hne]. destruct (H6 _ _ Ht) as [Hr _]. done.
  - intros id Hid. destruct (H7 _ Hid) as [c Hc]. exists c.
    rewrite lookup_insert_ne by (specialize (H2 _ Hid); lia).
    unfold clearTimeout, clearTimer.
    destruct (errorTimeoutRef s) as [j|] eqn:Hj; simpl; [|done].
    rewrite lookup_delete_ne; [done|]. intros ->. by apply (H4 _ Hid).
Qed.

Lemma schedule_hide_scheduled s : timers_ok s -> hide_scheduled (schedule_hide s).
Proof.
  intros H. pose proof (timers_ok_schedule_hide s H) as H'.
  exists (next_timer (clearTimeout (errorTimeoutRef s) s)).
  assert (Hr : errorTimeoutRef (schedule_hide s)
               = Some (next_timer (clearTimeout (errorTimeoutRef s) s))) by reflexivity.
  split; [exact Hr|]. split.
  - unfold schedule_hide, setTimeout. simpl. apply lookup_insert_eq.
  - intros j d Hj. destruct (ok_timeout _ H' _ _ Hj) as [Hq _]. congruence.
Qed.

(** What [schedule_hide] leaves alone. *)
Lemma schedule_hide_frame s :
  let s' := schedule_hide s in
  deckId s' = deckId s /\ remaining s' = remaining s /\ cardImage s' = cardImage s /\
  error s' = error s /\ errorMessageVisible s' = errorMessageVisible s /\
  isShuffling s' = isShuffling s /\ isDrawing s' = isDrawing s /\
  shuffleSpeed s' = shuffleSpeed s /\ intervalRef s' = intervalRef s /\
  requests s' = requests s /\ inflight s' = inflight s.
Proof.
  unfold schedule_hide, clearTimeout, clearTimer.
  destruct (errorTimeoutRef s); simpl; repeat split; reflexivity.
Qed.

(** Arming the hide timer cannot bring a repeating timer to life. *)
Lemma schedule_hide_no_interval s :
  timers_ok s -> no_interval s -> no_interval (schedule_hide s).
Proof.
  intros H Hno id d cb Hl.
  destruct (ok_interval _ (timers_ok_schedule_hide s H) _ _ _ Hl) as [Hi _].
  destruct (schedule_hide_frame s) as (_&_&_&_&_&_&_&_&Hr&_).
  rewrite Hr in Hi. destruct (ok_iref_live _ H _ Hi) as [c Hc].
  exact (Hno _ _ _ Hc).
Qed.

Lemma stop_polling_frame s :
  let s' := stop_polling s in
  deckId s' = deckId s /\ remaining s' = remaining s /\ cardImage s' = cardImage s /\
  error s' = error s /\ errorMessageVisible s' = errorMessageVisible s /\
  isShuffling s' = isShuffling s /\ isDrawing s' = isDrawing s /\
  shuffleSpeed s' = shuffleSpeed s /\ errorTimeoutRef s' = errorTimeoutRef s /\
  requests s' = requests s /\ inflight s' = inflight s /\ intervalRef s' = None.
Proof.
  unfold stop_polling, clearInterval, clearTimer.
  destruct (intervalRef s); simpl; repeat split; reflexivity.
Qed.

Lemma timers_ok_handleDraw s : timers_ok s -> timers_ok (handleDraw s).
Proof.
  intros H. unfold handleDraw. destruct (intervalRef s) as [i|] eqn:Hi.
  - apply (timers_ok_ext (stop_polling s)); [..| by apply timers_ok_stop];
      unfold stop_polling; rewrite Hi; reflexivity.
  - pose proof (next_timer_free s H) as Hnew.
    destruct H as [H1 H2 H3 H4 H5 H6 H7]. split; simpl.
    + intros id t [[<- _]|[_ Ht]]%lookup_insert_Some; [lia|].
      specialize (H1 _ _ Ht). lia.
    + intros id [= <-]. lia.
    + intros id Hid. specialize (H3 _ Hid). lia.
    + intros id [= <-] Hid. specialize (H3 _ Hid). lia.
    + intros id d c [[<- [= <- _]]|[_ Ht]]%lookup_insert_Some; [done|].
      destruct (H5 _ _ _ Ht) as [Hq _]. congruence.
    + intros id d [[_ [=]]|[_ Ht]]%lookup_insert_Some. eauto.
    + intros id [= <-]. exists (render s). apply lookup_insert_eq.
Qed.

(** A one-shot timer that fires leaves the table. *)
Lemma timers_ok_expire s id d :
  timers_ok s -> timers s !! id = Some (Timeout d) ->
  timers_ok (hideError (clearTimer (Some id) s)).
Proof.
  intros [H1 H2 H3 H4 H5 H6 H7] Hd. split; simpl.
  - intros j t [_ Ht]%lookup_delete_Some. eauto.
  - done.
  - done.
  - done.
  - intros j e c [_ Ht]%lookup_delete_Some. eauto.
  - intros j e [_ Ht]%lookup_delete_Some. eauto.
  - intros j Hj. destruct (H7 _ Hj) as [c Hc]. exists c.
    rewrite lookup_delete_ne; [done|]. intros ->. congruence.
Qed.

(** *** Every handler keeps the table consistent *)

(** Closes a goal about a state that differs from a consistent one only in
    hook cells or in the request log. *)
Ltac hooks_only :=
  match goal with
  | H : timers_ok ?s |- timers_ok _ =>
      apply (timers_ok_ext s); [reflexivity..|exact H]
  end.

Lemma timers_ok_launch a :
  match a with Returned s | Awaiting _ s => timers_ok s end -> timers_ok (launch a).
Proof. destruct a; simpl; [done|]. intros H. hooks_only. Qed.

Lemma timers_ok_drawCard_start c s : timers_ok s -> timers_ok (launch (drawCard_start c s)).
Proof.
  intros H. apply timers_ok_launch. rewrite drawCard_start_eq.
  destruct (c_remaining c =? 0).
  - apply timers_ok_schedule_hide, timers_ok_stop. hooks_only.
  - hooks_only.
Qed.

Lemma timers_ok_drawCard_resume r s : timers_ok s -> timers_ok (drawCard_resume r s).
Proof.
  intros H. destruct r as [|[d|]]; [hooks_only| |hooks_only].
  destruct (cards d) as [[|c0 rest]|] eqn:Hc.
  - rewrite (drawCard_resume_empty _ _ Hc).
    apply timers_ok_schedule_hide, timers_ok_stop. hooks_only.
  - rewrite (drawCard_resume_success _ _ _ _ Hc). hooks_only.
  - rewrite (drawCard_resume_malformed _ _ Hc).
    apply timers_ok_schedule_hide, timers_ok_stop. hooks_only.
Qed.

Lemma timers_ok_shuffleDeck_start s : timers_ok s -> timers_ok (launch (shuffleDeck_start s)).
Proof. intros H. apply timers_ok_launch. simpl. hooks_only. Qed.

Lemma timers_ok_shuffleDeck_resume r s : timers_ok s -> timers_ok (shuffleDeck_resume r s).
Proof. intros H. destruct r as [|[d|]]; hooks_only. Qed.

Lemma timers_ok_fetchDeck_resume r s : timers_ok s -> timers_ok (fetchDeck_resume r s).
Proof. intros H. destruct r as [|[d|]]; hooks_only. Qed.

Lemma timers_ok_settle k f s :
  (forall s0, timers_ok s0 -> timers_ok (f s0)) -> timers_ok s -> timers_ok (settle k f s).
Proof.
  intros Hf H. unfold settle. destruct (take k (inflight s)); [|done].
  apply Hf. hooks_only.
Qed.

Lemma timers_ok_mounted : timers_ok mounted.
Proof.
  pose proof timers_ok_initial as H. apply timers_ok_launch. simpl. hooks_only.
Qed.

Lemma timers_ok_step s e : timers_ok s -> timers_ok (step s e).
Proof.
  intros H. destruct e; simpl.
  - destruct (controls_rendered s); [by apply timers_ok_handleDraw | done].
  - destruct (controls_rendered s && negb (isShuffling s));
      [by apply timers_ok_shuffleDeck_start | done].
  - destruct (controls_rendered s); [hooks_only | done].
  - destruct (timers s !! id) as [[d cb|d]|] eqn:Hid.
    + by apply timers_ok_drawCard_start.
    + by eapply timers_ok_expire.
    + done.
  - apply timers_ok_settle; [apply timers_ok_fetchDeck_resume | done].
  - apply timers_ok_settle; [apply timers_ok_drawCard_resume | done].
  - apply timers_ok_settle; [apply timers_ok_shuffleDeck_resume | done].
Qed.

Lemma timers_ok_run es s : timers_ok s -> timers_ok (run es s).
Proof.
  revert s. induction es as [|e es IH]; intros s H; simpl; [done|].
  apply IH. by apply timers_ok_step.
Qed.

Lemma timers_ok_reachable es : timers_ok (run es mounted).
Proof. apply timers_ok_run, timers_ok_mounted. Qed.

(** At most one repeating timer and at most one hide timer are live, in
    every state the component can reach. *)
Lemma one_interval s i j d d' c c' :
  timers_ok s ->
  timers s !! i = Some (Interval d c) -> timers s !! j = Some (Interval d' c') -> i = j.
Proof.
  intros H Hi Hj.
  destruct (ok_interval _ H _ _ _ Hi) as [Ei _].
  destruct (ok_interval _ H _ _ _ Hj) as [Ej _]. congruence.
Qed.

Lemma one_timeout s i j d d' :
  timers_ok s ->
  timers s !! i = Some (Timeout d) -> timers s !! j = Some (Timeout d') -> i = j.
Proof.
  intros H Hi Hj.
  destruct (ok_timeout _ H _ _ Hi) as [Ei _].
  destruct (ok_timeout _ H _ _ Hj) as [Ej _]. congruence.
Qed.

(** ** [drawCard] on an exhausted deck *)

Lemma exhausted_branch_ok c r s :
  timers_ok s -> c_remaining c = 0 ->
  let s' := drawCard c r s in
  drawCard_start c s = Returned s' /\
  requests s' = requests s /\ inflight s' = inflight s /\
  intervalRef s' = None /\ isDrawing s' = false /\ no_interval s' /\
  displays "Error: no cards remaining!" s' /\
  hide_scheduled s'.
Proof.
  intros Hok Hc. unfold drawCard. rewrite drawCard_start_eq, Hc. simpl Z.eqb. cbv iota.
  set (s1 := setIsDrawing false (setErrorMessageVisible true
               (setError (Some "Error: no cards remaining!") s))).
  assert (Hok1 : timers_ok s1) by (subst s1; hooks_only).
  destruct (schedule_hide_frame (stop_polling s1)) as (_&_&_&He&Hv&_&Hd&_&Hi&Hq&Hf).
  destruct (stop_polling_frame s1) as (_&_&_&He'&Hv'&_&Hd'&_&_&Hq'&Hf'&Hi').
  cbv zeta in *.
  split; [reflexivity|].
  split; [by rewrite Hq, Hq'|]. split; [by rewrite Hf, Hf'|].
  split; [by rewrite Hi|]. split; [by rewrite Hd, Hd'|].
  split.
  { apply schedule_hide_no_interval; [by apply timers_ok_stop|].
    by apply stop_polling_no_interval. }
  split; [split; [by rewrite Hv, Hv' | by rewrite He, He']|].
  apply schedule_hide_scheduled. by apply timers_ok_stop.
Qed.

(** In every reachable state, a [drawCard] whose render saw
    [remaining === 0] returns before its [await]: it issues no request and
    parks none, clears the repeating timer and the handle, sets [isDrawing]
    to false, shows [Error: no cards remaining!], and leaves exactly one
    hide timer of 3000 ms pending, whose firing hides the banner. *)
Theorem drawCard_exhausted (es : list event) (c : closure) (r : fetch_result draw_data) :
  c_remaining c = 0 ->
  let s := run es mounted in
  let s' := drawCard c r s in
  drawCard_start c s = Returned s' /\
  requests s' = requests s /\ inflight s' = inflight s /\
  intervalRef s' = None /\ isDrawing s' = false /\ no_interval s' /\
  displays "Error: no cards remaining!" s' /\
  hide_scheduled s' /\
  (forall id, errorTimeoutRef s' = Some id ->
              errorMessageVisible (step s' (Fire id)) = false).
Proof.
  intros Hc s s'.
  destruct (exhausted_branch_ok c r s (timers_ok_reachable es) Hc)
    as (H1&H2&H3&H4&H5&H6&H7&H8).
  repeat (split; [assumption|]).
  intros id Hid. destruct H8 as (id'&Hr&Hl&_).
  fold s' in Hr, Hl. rewrite Hr in Hid. injection Hid as <-.
  simpl. rewrite Hl. reflexivity.
Qed.

Lemma drawCard_exhausted_witness :
  c_remaining (render polling0) = 0 /\
  requests (drawCard (render polling0) Rejected polling0) = requests polling0 /\
  intervalRef (drawCard (render polling0) Rejected polling0) = None /\
  isDrawing (drawCard (render polling0) Rejected polling0) = false /\
  displays "Error: no cards remaining!" (drawCard (render polling0) Rejected polling0).
Proof.
  split; [reflexivity|].
  pose proof (drawCard_exhausted [SettleDeck deck0; ClickDraw] (render polling0)
                Rejected eq_refl) as H.
  cbv zeta in H. fold polling0 in H.
  destruct H as (_&H2&_&H4&H5&_&H7&_). auto.
Defined.

(** ** A successful draw *)

(** C5. When the request of a [drawCard] that passed line 43 resolves to a
    body whose [cards] is a non-empty list, [cardImage] becomes the image of
    the first card of that body and [remaining] becomes the body's
    [remaining], whatever the count was before; the same holds for the
    continuation alone, run on any state. *)
Theorem drawCard_success
    (c : closure) (s : state) (data : draw_data) (c0 : card) (rest : list card) :
  c_remaining c <> 0 ->
  cards data = Some (c0 :: rest) ->
  (let s' := drawCard c (Resolved (Some data)) s in
   cardImage s' = Some (image c0) /\ remaining s' = draw_remaining data /\
   requests s' = requests s ++ [draw_url (c_deckId c)]) /\
  (forall s1, let s' := drawCard_resume (Resolved (Some data)) s1 in
   cardImage s' = Some (image c0) /\ remaining s' = draw_remaining data).
Proof.
  intros Hc Hd. split.
  - unfold drawCard. rewrite drawCard_start_eq.
    apply Z.eqb_neq in Hc. rewrite Hc.
    rewrite (drawCard_resume_success _ _ _ _ Hd). simpl. auto.
  - intros s1. rewrite (drawCard_resume_success _ _ _ _ Hd). simpl. auto.
Qed.

Lemma drawCard_success_witness :
  c_remaining (render polling52) <> 0 /\
  cards one_card = Some ({| image := "https://deckofcardsapi.com/static/img/KH.png" |} :: []) /\
  cardImage (drawCard (render polling52) (Resolved (Some one_card)) polling52)
    = Some "https://deckofcardsapi.com/static/img/KH.png" /\
  remaining (drawCard (render polling52) (Resolved (Some one_card)) polling52) = 51.
Proof.
  assert (Hc : c_remaining (render polling52) <> 0) by (vm_compute; discriminate).
  split; [exact Hc|]. split; [reflexivity|].
  destruct (drawCard_success (render polling52) polling52 one_card _ _ Hc eq_refl)
    as [(H1&H2&_) _].
  split; [exact H1 | exact H2].
Defined.

(** [remaining] is only ever written with the count of a response body: an
    event either leaves it alone or is a settled request whose body carries
    the new value.  Nothing computes it locally. *)
Lemma remaining_step (s : state) (e : event) :
  remaining (step s e) = remaining s \/
  match e with
  | SettleDeck (Resolved (Some d)) => remaining (step s e) = deck_remaining d
  | SettleDraw (Resolved (Some d)) => remaining (step s e) = draw_remaining d
  | SettleShuffle (Resolved (Some d)) => remaining (step s e) = shuffle_remaining d
  | _ => False
  end.
Proof.
  destruct e; simpl.
  - left. destruct (controls_rendered s); [|done].
    unfold handleDraw. by destruct (intervalRef s).
  - left. by destruct (controls_rendered s && negb (isShuffling s)).
  - left. by destruct (controls_rendered s).
  - left. destruct (timers s !! id) as [[d cb|d]|]; [|done..].
    rewrite drawCard_start_eq. destruct (c_remaining cb =? 0); [|done].
    unfold launch.
    match goal with |- context [schedule_hide (stop_polling ?x)] =>
      destruct (schedule_hide_frame (stop_polling x)) as (_&Hs&_);
      destruct (stop_polling_frame x) as (_&Hs'&_) end.
    cbv zeta in *. by rewrite Hs, Hs'.
  - unfold settle. destruct (take KFetchDeck (inflight s)); [|destruct r as [|[d|]]; auto].
    destruct r as [|[d|]]; simpl; auto.
  - unfold settle.
    destruct (take KDrawCard (inflight s)) as [ks|]; [|destruct r as [|[d|]]; auto].
    destruct r as [|[d|]]; [by left| |by left].
    set (s0 := with_network (requests s) ks s).
    change (remaining s) with (remaining s0). clearbody s0.
    destruct (cards d) as [[|c0 rest]|] eqn:Hc.
    + left. rewrite (drawCard_resume_empty _ _ Hc).
      match goal with |- context [schedule_hide (stop_polling ?x)] =>
        destruct (schedule_hide_frame (stop_polling x)) as (_&Hs&_);
        destruct (stop_polling_frame x) as (_&Hs'&_) end.
      cbv zeta in *. by rewrite Hs, Hs'.
    + right. by rewrite (drawCard_resume_success _ _ _ _ Hc).
    + left. rewrite (drawCard_resume_malformed _ _ Hc).
      match goal with |- context [schedule_hide (stop_polling ?x)] =>
        destruct (schedule_hide_frame (stop_polling x)) as (_&Hs&_);
        destruct (stop_polling_frame x) as (_&Hs'&_) end.
      cbv zeta in *. by rewrite Hs, Hs'.
  - unfold settle. destruct (take KShuffleDeck (inflight s)); [|destruct r as [|[d|]]; auto].
    destruct r as [|[d|]]; simpl; auto.
Qed.

(** C9. Such a draw writes [cardImage] and [remaining] and nothing else of
    the component: the error text, the visibility flag, the hide-timer ref,
    the timer table, the polling handle, [isDrawing] and [isShuffling] (and
    [deckId] and [shuffleSpeed]) are those of the state before.  A banner
    that was visible stays visible, and its pending hide timer, still in
    the table, hides it when it fires. *)
Theorem successful_draw_frame
    (c : closure) (s : state) (data : draw_data) (c0 : card) (rest : list card) :
  c_remaining c <> 0 ->
  cards data = Some (c0 :: rest) ->
  let s' := drawCard c (Resolved (Some data)) s in
  error s' = error s /\ errorMessageVisible s' = errorMessageVisible s /\
  errorTimeoutRef s' = errorTimeoutRef s /\
  timers s' = timers s /\ next_timer s' = next_timer s /\
  intervalRef s' = intervalRef s /\ isDrawing s' = isDrawing s /\
  isShuffling s' = isShuffling s /\
  deckId s' = deckId s /\ shuffleSpeed s' = shuffleSpeed s /\
  (forall id d, timers s !! id = Some (Timeout d) ->
     errorMessageVisible (step s' (Fire id)) = false).
Proof.
  intros Hc Hd s'. subst s'. unfold drawCard. rewrite drawCard_start_eq.
  apply Z.eqb_neq in Hc. rewrite Hc.
  rewrite (drawCard_resume_success _ _ _ _ Hd). simpl.
  repeat (split; [reflexivity|]).
  intros id d Hl. rewrite Hl. reflexivity.
Qed.

Example ex_banner52 :
  displays "Error: No cards available." banner52 /\
  errorTimeoutRef banner52 = Some 2%positive /\
  timers banner52 !! 2%positive = Some (Timeout 3000) /\
  intervalRef banner52 = Some 3%positive /\ isDrawing banner52 = true.
Proof. vm_compute. auto. Qed.

Lemma successful_draw_frame_witness :
  c_remaining (render banner52) <> 0 /\
  cards one_card = Some ({| image := "https://deckofcardsapi.com/static/img/KH.png" |} :: []) /\
  errorMessageVisible (drawCard (render banner52) (Resolved (Some one_card)) banner52) = true /\
  timers (drawCard (render banner52) (Resolved (Some one_card)) banner52) = timers banner52.
Proof.
  assert (Hc : c_remaining (render banner52) <> 0) by (vm_compute; discriminate).
  split; [exact Hc|]. split; [reflexivity|].
  destruct (successful_draw_frame (render banner52) banner52 one_card _ _ Hc eq_refl)
    as (_&H2&_&H4&_).
  split; [rewrite H2; reflexivity | exact H4].
Defined.

(** ** [shuffleDeck] *)

(** C10. Neither phase of [shuffleDeck], on either outcome, writes the
    polling handle, [isDrawing], the timer table or [deckId]; a failed
    shuffle also leaves [remaining] and [cardImage] as they were. *)
Theorem shuffleDeck_frame (r : fetch_result shuffle_data) (s : state) :
  (let s' := launch (shuffleDeck_start s) in
   intervalRef s' = intervalRef s /\ isDrawing s' = isDrawing s /\
   timers s' = timers s /\ deckId s' = deckId s /\
   remaining s' = remaining s /\ cardImage s' = cardImage s) /\
  (let s' := shuffleDeck_resume r s in
   intervalRef s' = intervalRef s /\ isDrawing s' = isDrawing s /\
   timers s' = timers s /\ deckId s' = deckId s /\
   (shuffle_failed r -> remaining s' = remaining s /\ cardImage s' = cardImage s)) /\
  (let s' := shuffleDeck r s in
   intervalRef s' = intervalRef s /\ isDrawing s' = isDrawing s /\
   timers s' = timers s /\ deckId s' = deckId s /\
   (shuffle_failed r -> remaining s' = remaining s /\ cardImage s' = cardImage s)).
Proof.
  split; [simpl; auto 10|].
  split.
  - destruct r as [|[d|]]; simpl; repeat (split; [reflexivity|]).
    + auto.
    + intros [H|H]; discriminate H.
    + auto.
  - unfold shuffleDeck. destruct r as [|[d|]]; simpl; repeat (split; [reflexivity|]).
    + auto.
    + intros [H|H]; discriminate H.
    + auto.
Qed.

(** What [shuffleDeck] does to the busy flag, the count and the card. *)
Lemma shuffleDeck_busy (s : state) :
  (let s1 := launch (shuffleDeck_start s) in
   isShuffling s1 = true /\ requests s1 = requests s ++ [shuffle_url (deckId s)]) /\
  (forall d, let s' := shuffleDeck (Resolved (Some d)) s in
   remaining s' = shuffle_remaining d /\ cardImage s' = None /\ isShuffling s' = false) /\
  (forall r, shuffle_failed r -> let s' := shuffleDeck r s in
   error s' = Some "Failed to shuffle deck." /\ isShuffling s' = false /\
   errorMessageVisible s' = errorMessageVisible s /\
   errorTimeoutRef s' = errorTimeoutRef s).
Proof.
  split; [simpl; auto|]. split; [simpl; auto|].
  intros r [-> | ->]; simpl; auto.
Qed.

(** ** [handleShuffleSpeed] *)

Lemma shuffleSpeed_step s e :
  shuffleSpeed s = 1000 \/ shuffleSpeed s = 500 ->
  shuffleSpeed (step s e) = 1000 \/ shuffleSpeed (step s e) = 500.
Proof.
  intros H. destruct e; simpl.
  - destruct (controls_rendered s); [|done]. unfold handleDraw.
    by destruct (intervalRef s).
  - by destruct (controls_rendered s && negb (isShuffling s)).
  - destruct (controls_rendered s); [|done]. simpl.
    destruct (shuffleSpeed s =? 1000); auto.
  - destruct (timers s !! id) as [[d cb|d]|]; [|done..].
    rewrite drawCard_start_eq. destruct (c_remaining cb =? 0); [|done].
    unfold launch. destruct (schedule_hide_frame (stop_polling (setIsDrawing false
      (setErrorMessageVisible true (setError (Some "Error: no cards remaining!") s)))))
      as (_&_&_&_&_&_&_&Hs&_).
    destruct (stop_polling_frame (setIsDrawing false
      (setErrorMessageVisible true (setError (Some "Error: no cards remaining!") s))))
      as (_&_&_&_&_&_&_&Hs'&_).
    cbv zeta in *. rewrite Hs, Hs'. exact H.
  - unfold settle. destruct (take KFetchDeck (inflight s)); [|done].
    by destruct r as [|[d|]].
  - unfold settle. destruct (take KDrawCard (inflight s)) as [ks|]; [|done].
    destruct r as [|[d|]]; [done| |done].
    set (s0 := with_network (requests s) ks s).
    assert (H0 : shuffleSpeed s0 = 1000 \/ shuffleSpeed s0 = 500) by exact H.
    clearbody s0. clear H.
    destruct (cards d) as [[|c0 rest]|] eqn:Hc.
    + rewrite (drawCard_resume_empty _ _ Hc).
      match goal with |- context [schedule_hide (stop_polling ?x)] =>
        destruct (schedule_hide_frame (stop_polling x)) as (_&_&_&_&_&_&_&Hs&_);
        destruct (stop_polling_frame x) as (_&_&_&_&_&_&_&Hs'&_) end.
      cbv zeta in *. rewrite Hs, Hs'. exact H0.
    + rewrite (drawCard_resume_success _ _ _ _ Hc). exact H0.
    + rewrite (drawCard_resume_malformed _ _ Hc).
      match goal with |- context [schedule_hide (stop_polling ?x)] =>
        destruct (schedule_hide_frame (stop_polling x)) as (_&_&_&_&_&_&_&Hs&_);
        destruct (stop_polling_frame x) as (_&_&_&_&_&_&_&Hs'&_) end.
      cbv zeta in *. rewrite Hs, Hs'. exact H0.
  - unfold settle. destruct (take KShuffleDeck (inflight s)); [|done].
    by destruct r as [|[d|]].
Qed.

Lemma shuffleSpeed_reachable es :
  shuffleSpeed (run es mounted) = 1000 \/ shuffleSpeed (run es mounted) = 500.
Proof.
  assert (G : forall s, shuffleSpeed s = 1000 \/ shuffleSpeed s = 500 ->
              shuffleSpeed (run es s) = 1000 \/ shuffleSpeed (run es s) = 500).
  { induction es as [|e es IH]; intros s H; simpl; [done|].
    apply IH. by apply shuffleSpeed_step. }
  apply G. left. reflexivity.
Qed.

(** C8. [handleShuffleSpeed] stores 500 when the preference is 1000 and
    1000 otherwise, and writes nothing else that a timer depends on; in
    every reachable state the preference is 1000 or 500 and two toggles in a
    row give it back.  No timer reads it: [handleDraw] does the same
    whatever the preference is, the interval it starts has delay 1000, and
    every timer of a reachable state has delay 1000 (repeating) or 3000
    (one-shot). *)
Theorem handleShuffleSpeed_flip :
  (forall s, shuffleSpeed (handleShuffleSpeed s)
             = if shuffleSpeed s =? 1000 then 500 else 1000) /\
  (forall s, timers (handleShuffleSpeed s) = timers s /\
             intervalRef (handleShuffleSpeed s) = intervalRef s /\
             isDrawing (handleShuffleSpeed s) = isDrawing s) /\
  (forall es, shuffleSpeed (run es mounted) = 1000 \/
              shuffleSpeed (run es mounted) = 500) /\
  (forall es, let s := run es mounted in
     shuffleSpeed (handleShuffleSpeed (handleShuffleSpeed s)) = shuffleSpeed s) /\
  (forall v s, handleDraw (setShuffleSpeed v s) = setShuffleSpeed v (handleDraw s)) /\
  (forall v s, intervalRef s = None ->
     timers (handleDraw (setShuffleSpeed v s)) !! next_timer s
       = Some (Interval 1000 (render s))) /\
  (forall es id t, timers (run es mounted) !! id = Some t ->
     (exists cb, t = Interval 1000 cb) \/ t = Timeout 3000).
Proof.
  split; [reflexivity|].
  split; [by intros s|].
  split; [apply shuffleSpeed_reachable|].
  split.
  { intros es s. destruct (shuffleSpeed_reachable es) as [H|H]; fold s in H;
      simpl; rewrite H; reflexivity. }
  split.
  { intros v s. unfold handleDraw. simpl. destruct (intervalRef s); reflexivity. }
  split.
  { intros v s H. unfold handleDraw. simpl. rewrite H. simpl.
    apply lookup_insert_eq. }
  intros es id [d cb|d] Hl.
  - left. exists cb.
    destruct (ok_interval _ (timers_ok_reachable es) _ _ _ Hl) as [_ ->]. reflexivity.
  - right. destruct (ok_timeout _ (timers_ok_reachable es) _ _ Hl) as [_ ->]. reflexivity.
Qed.

(** ** The polling invariant *)

(** Every handler but the continuation of [drawCard] keeps the polling
    invariant, and so does that continuation on every body but one without
    a [cards] property. *)
Lemma polling_inv_ext s s' :
  intervalRef s' = intervalRef s -> isDrawing s' = isDrawing s ->
  polling_inv s -> polling_inv s'.
Proof. unfold polling_inv. intros -> ->. done. Qed.

Lemma polling_inv_stopped s :
  intervalRef s = None -> isDrawing s = false -> polling_inv s.
Proof.
  unfold polling_inv. intros -> ->. split; [intros [x Hx]|intros Hx]; discriminate Hx.
Qed.

Lemma polling_inv_handleDraw s : polling_inv (handleDraw s).
Proof.
  unfold handleDraw. destruct (intervalRef s) as [i|].
  - apply polling_inv_stopped; reflexivity.
  - unfold polling_inv. simpl. split; eauto.
Qed.

Lemma polling_inv_drawCard_start c s :
  polling_inv s -> polling_inv (launch (drawCard_start c s)).
Proof.
  intros H. rewrite drawCard_start_eq. destruct (c_remaining c =? 0).
  - unfold launch.
    match goal with |- context [schedule_hide (stop_polling ?x)] =>
      destruct (schedule_hide_frame (stop_polling x)) as (_&_&_&_&_&_&Hd&_&Hi&_);
      destruct (stop_polling_frame x) as (_&_&_&_&_&_&Hd'&_&_&_&_&Hi') end.
    cbv zeta in *. apply polling_inv_stopped; [by rewrite Hi | by rewrite Hd, Hd'].
  - exact H.
Qed.

Lemma polling_inv_drawCard_resume r s :
  (forall d, r = Resolved (Some d) -> cards d <> None) ->
  polling_inv s -> polling_inv (drawCard_resume r s).
Proof.
  intros Hr H. destruct r as [|[d|]]; [exact H| |exact H].
  destruct (cards d) as [[|c0 rest]|] eqn:Hc.
  - rewrite (drawCard_resume_empty _ _ Hc).
    match goal with |- context [schedule_hide (stop_polling ?x)] =>
      destruct (schedule_hide_frame (stop_polling x)) as (_&_&_&_&_&_&Hd&_&Hi&_);
      destruct (stop_polling_frame x) as (_&_&_&_&_&_&Hd'&_&_&_&_&Hi') end.
    cbv zeta in *. apply polling_inv_stopped; [by rewrite Hi | by rewrite Hd, Hd'].
  - rewrite (drawCard_resume_success _ _ _ _ Hc). exact H.
  - destruct (Hr d eq_refl Hc).
Qed.

Lemma polling_inv_others s :
  polling_inv s ->
  (forall r, polling_inv (fetchDeck_resume r s)) /\
  polling_inv (launch (shuffleDeck_start s)) /\
  (forall r, polling_inv (shuffleDeck_resume r s)) /\
  polling_inv (handleShuffleSpeed s) /\
  polling_inv (hideError s).
Proof.
  intros H. split; [|split; [|split]]; try done.
  - intros [|[d|]]; exact H.
  - intros [|[d|]]; exact H.
Qed.

(** Two presses of the start/stop button: the handle is absent again iff it
    was absent, and the flag is the one the first press wrote twice over,
    so the pair comes back when it satisfied the polling invariant. *)
Lemma handleDraw_twice s :
  polling_inv s ->
  let s' := handleDraw (handleDraw s) in
  (is_Some (intervalRef s') <-> is_Some (intervalRef s)) /\
  isDrawing s' = isDrawing s.
Proof.
  intros Hinv. unfold polling_inv in Hinv. unfold handleDraw at 2.
  destruct (intervalRef s) as [i|] eqn:Hi.
  - unfold handleDraw. simpl. split; [split; eauto|].
    symmetry. apply Hinv. eauto.
  - unfold handleDraw. simpl. split.
    + split; intros [x Hx]; discriminate Hx.
    + destruct (isDrawing s); [|reflexivity].
      destruct Hinv as [_ Hinv]. destruct (Hinv eq_refl) as [x Hx]. discriminate Hx.
Qed.

(** The handle alone always comes back. *)
Lemma handleDraw_twice_handle s :
  is_Some (intervalRef (handleDraw (handleDraw s))) <-> is_Some (intervalRef s).
Proof.
  unfold handleDraw at 2. destruct (intervalRef s) as [i|] eqn:Hi.
  - unfold handleDraw. simpl. split; eauto.
  - unfold handleDraw. simpl. split; intros [x Hx]; discriminate Hx.
Qed.

(** Presses of the button never leave two repeating timers alive. *)
Lemma handleDraw_one_interval n s i j d d' c c' :
  timers_ok s ->
  timers (Nat.iter n handleDraw s) !! i = Some (Interval d c) ->
  timers (Nat.iter n handleDraw s) !! j = Some (Interval d' c') -> i = j.
Proof.
  intros Hok. apply one_interval.
  induction n as [|n IH]; simpl; [done | by apply timers_ok_handleDraw].
Qed.

(** ** The error branches of the continuation of [drawCard] *)

Lemma drawCard_resume_errors (d : draw_data) (s : state) :
  timers_ok s ->
  (cards d = None ->
   let s' := drawCard_resume (Resolved (Some d)) s in
   intervalRef s' = None /\ no_interval s' /\
   displays "Error: Invalid API response." s' /\ hide_scheduled s' /\
   isDrawing s' = isDrawing s) /\
  (cards d = Some [] ->
   let s' := drawCard_resume (Resolved (Some d)) s in
   intervalRef s' = None /\ no_interval s' /\
   displays "Error: No cards available." s' /\ hide_scheduled s' /\
   isDrawing s' = false).
Proof.
  intros Hok. split; intros Hc.
  - rewrite (drawCard_resume_malformed _ _ Hc).
    set (s1 := setErrorMessageVisible true (setError (Some "Error: Invalid API response.") s)).
    assert (Hok1 : timers_ok s1) by (subst s1; hooks_only).
    destruct (schedule_hide_frame (stop_polling s1)) as (_&_&_&He&Hv&_&Hd&_&Hi&_).
    destruct (stop_polling_frame s1) as (_&_&_&He'&Hv'&_&Hd'&_&_&_&_&Hi').
    cbv zeta in *.
    split; [by rewrite Hi|]. split.
    { apply schedule_hide_no_interval; [by apply timers_ok_stop|].
      by apply stop_polling_no_interval. }
    split; [split; [by rewrite Hv, Hv' | by rewrite He, He']|].
    split; [apply schedule_hide_scheduled; by apply timers_ok_stop|].
    by rewrite Hd, Hd'.
  - rewrite (drawCard_resume_empty _ _ Hc).
    set (s1 := setIsDrawing false (setErrorMessageVisible true
                 (setError (Some "Error: No cards available.") s))).
    assert (Hok1 : timers_ok s1) by (subst s1; hooks_only).
    destruct (schedule_hide_frame (stop_polling s1)) as (_&_&_&He&Hv&_&Hd&_&Hi&_).
    destruct (stop_polling_frame s1) as (_&_&_&He'&Hv'&_&Hd'&_&_&_&_&Hi').
    cbv zeta in *.
    split; [by rewrite Hi|]. split.
    { apply schedule_hide_no_interval; [by apply timers_ok_stop|].
      by apply stop_polling_no_interval. }
    split; [split; [by rewrite Hv, Hv' | by rewrite He, He']|].
    split; [apply schedule_hide_scheduled; by apply timers_ok_stop|].
    by rewrite Hd, Hd'.
Qed.

(** The three [catch] blocks (lines 30-33, 89-92, 106-110) write the error
    text and never the visibility flag, the hide-timer ref or a timer. *)
Lemma catch_blocks_hidden (s : state) :
  (forall r, r = Rejected \/ r = Resolved None ->
     let s' := fetchDeck_resume r s in
     error s' = Some "Failed to fetch deck." /\
     errorMessageVisible s' = errorMessageVisible s /\
     errorTimeoutRef s' = errorTimeoutRef s /\ timers s' = timers s) /\
  (forall r, r = Rejected \/ r = Resolved None ->
     let s' := drawCard_resume r s in
     error s' = Some "Failed to draw card." /\
     errorMessageVisible s' = errorMessageVisible s /\
     errorTimeoutRef s' = errorTimeoutRef s /\ timers s' = timers s /\
     intervalRef s' = intervalRef s /\ isDrawing s' = isDrawing s) /\
  (forall r, shuffle_failed r ->
     let s' := shuffleDeck_resume r s in
     error s' = Some "Failed to shuffle deck." /\
     errorMessageVisible s' = errorMessageVisible s /\
     errorTimeoutRef s' = errorTimeoutRef s /\ timers s' = timers s).
Proof.
  split; [|split]; intros r [-> | ->]; simpl; auto 10.
Qed.

(** ** Runs on which the component departs from its description *)

(** C1. The stored count is 0 and automatic drawing is on: the deck had
    52 cards when the start button was pressed and the last card has just
    been drawn.  The only caller of [drawCard] is the timer of line 122,
    which holds the [drawCard] of the render of that press, so line 43
    compares 52, not the stored 0, with 0: the next call sends a draw
    request, leaves the timer, the handle and [isDrawing] as they are and
    shows no banner. *)
Theorem drained_deck_still_requests :
  let s' := step drained52 (Fire 1%positive) in
  remaining drained52 = 0 /\
  timers drained52 !! 1%positive
    = Some (Interval 1000 {| c_deckId := Some "abc"; c_remaining := 52 |}) /\
  (forall id d cb, timers drained52 !! id = Some (Interval d cb) -> c_remaining cb = 52) /\
  drawCard_start {| c_deckId := Some "abc"; c_remaining := 52 |} drained52
    = Awaiting KDrawCard (fetch (draw_url (Some "abc")) drained52) /\
  requests s' = requests drained52 ++ [draw_url (Some "abc")] /\
  inflight s' = inflight drained52 ++ [KDrawCard] /\
  intervalRef s' = Some 1%positive /\ timers s' = timers drained52 /\
  isDrawing s' = true /\
  errorMessageVisible s' = false /\ error s' = None /\
  ~ displays "Error: no cards remaining!" s'.
Proof.
  assert (Hl : timers drained52 !! 1%positive
               = Some (Interval 1000 {| c_deckId := Some "abc"; c_remaining := 52 |}))
    by (vm_compute; reflexivity).
  cbv zeta. split; [vm_compute; reflexivity|]. split; [exact Hl|].
  split.
  { assert (Hok : timers_ok drained52).
    { unfold drained52, polling52. apply timers_ok_run, timers_ok_run, timers_ok_mounted. }
    intros id d cb H.
    pose proof (one_interval drained52 _ _ _ _ _ _ Hok H Hl) as ->.
    rewrite Hl in H. injection H as _ <-. reflexivity. }
  split; [unfold drawCard_start; reflexivity|].
  repeat (split; [vm_compute; reflexivity|]).
  intros [H _]. vm_compute in H. discriminate H.
Qed.

(** C2. Automatic drawing is on (handle set, flag true) and a draw resolves
    to a body without [cards]: lines 65-74 clear the timer and the handle
    but, unlike lines 46 and 79, do not call [setIsDrawing(false)].  The
    handle is unset while the flag is still true. *)
Theorem malformed_draw_breaks_polling_inv :
  polling_inv polling52 /\
  drawCard (render polling52) (Resolved (Some no_cards_field)) polling52 = after_malformed /\
  intervalRef after_malformed = None /\
  isDrawing after_malformed = true /\
  ~ polling_inv after_malformed.
Proof.
  split.
  { unfold polling_inv. split; [reflexivity | intros _; by eexists]. }
  split; [by vm_compute|]. split; [reflexivity|]. split; [reflexivity|].
  intros [_ H]. destruct (H eq_refl) as [x Hx]. discriminate Hx.
Qed.

(** C3. Automatic drawing is on, no banner is up, and the draw request is
    rejected: line 91 stores the text [Failed to draw card.] and the timer
    keeps running, but nothing sets [errorMessageVisible], so line 137
    renders no banner. *)
Theorem rejected_draw_not_displayed :
  let s := run [Fire 1%positive; SettleDraw Rejected] polling52 in
  drawCard (render polling52) Rejected polling52 = s /\
  error s = Some "Failed to draw card." /\
  errorMessageVisible s = false /\
  ~ displays "Failed to draw card." s /\
  intervalRef s = Some 1%positive /\
  timers s !! 1%positive = Some (Interval 1000 (render polling52)) /\
  timers s = timers polling52.
Proof.
  cbv zeta. split; [by vm_compute|].
  split; [reflexivity|]. split; [reflexivity|].
  split; [intros [H _]; discriminate H|].
  split; [reflexivity|]. split; by vm_compute.
Qed.

(** C4. The very first request fails: line 32 stores [Failed to fetch
    deck.], and neither the visibility flag nor a hide timer is touched.
    No banner is rendered and nothing is scheduled. *)
Theorem failed_fetch_not_displayed :
  let s := run [SettleDeck Rejected] mounted in
  fetchDeck Rejected initial = s /\
  error s = Some "Failed to fetch deck." /\
  errorMessageVisible s = false /\
  ~ displays "Failed to fetch deck." s /\
  errorTimeoutRef s = None /\
  timers s = ∅.
Proof.
  cbv zeta. split; [by vm_compute|].
  split; [reflexivity|]. split; [reflexivity|].
  split; [intros [H _]; discriminate H|].
  split; [reflexivity | by vm_compute].
Qed.

(** C6. A deck is loaded, no banner is up, and the shuffle request is
    rejected: the busy flag goes up before the request and down after it,
    line 108 stores [Failed to shuffle deck.], and the banner stays
    hidden. *)
Theorem failed_shuffle_not_displayed :
  let s1 := run [ClickShuffle] ready52 in
  let s := run [ClickShuffle; SettleShuffle Rejected] ready52 in
  isShuffling s1 = true /\ requests s1 = requests ready52 ++ [shuffle_url (Some "abc")] /\
  shuffleDeck Rejected ready52 = s /\
  isShuffling s = false /\
  error s = Some "Failed to shuffle deck." /\
  errorMessageVisible s = false /\
  ~ displays "Failed to shuffle deck." s /\
  timers s = ∅.
Proof.
  cbv zeta. split; [reflexivity|]. split; [reflexivity|].
  split; [by vm_compute|].
  split; [reflexivity|]. split; [reflexivity|]. split; [reflexivity|].
  split; [intros [H _]; discriminate H | by vm_compute].
Qed.

(** C7. After the run of C2 the handle is unset and the flag is true.  Two
    presses of the start/stop button start a timer and stop it again: the
    handle is unset as before, but the flag is now false. *)
Theorem double_toggle_after_malformed :
  let s := run [ClickDraw; ClickDraw] after_malformed in
  handleDraw (handleDraw after_malformed) = s /\
  intervalRef after_malformed = None /\ isDrawing after_malformed = true /\
  intervalRef s = None /\ isDrawing s = false /\
  isDrawing s <> isDrawing after_malformed.
Proof.
  cbv zeta. split; [by vm_compute|].
  repeat (split; [reflexivity|]). discriminate.
Qed.

(** ** Further properties of the component *)

(** *** Timers *)

Lemma refs_cover_timers s :
  timers_ok s ->
  dom (timers s) ⊆
    (match intervalRef s with Some i => {[i]} | None => ∅ end : gset positive) ∪
    (match errorTimeoutRef s with Some j => {[j]} | None => ∅ end).
Proof.
  intros H id [t Ht]%elem_of_dom. destruct t as [d cb|d].
  - destruct (ok_interval _ H _ _ _ Ht) as [-> _]. set_solver.
  - destruct (ok_timeout _ H _ _ Ht) as [-> _]. set_solver.
Qed.

(** X1. In every reachable state the timer table holds nothing but the
    timers the two refs point at: a repeating timer is the one in
    [intervalRef] and has delay 1000, a one-shot timer is the one in
    [errorTimeoutRef] and has delay 3000, a handle in [intervalRef] is that
    of a live repeating timer, and so at most two timers are live, one of
    each kind.  No timer is ever left running without a handle to it. *)
Theorem reachable_timers_held (es : list event) :
  let s := run es mounted in
  (forall id d cb, timers s !! id = Some (Interval d cb) ->
                   intervalRef s = Some id /\ d = 1000) /\
  (forall id d, timers s !! id = Some (Timeout d) ->
                errorTimeoutRef s = Some id /\ d = 3000) /\
  (forall id, intervalRef s = Some id ->
              exists cb, timers s !! id = Some (Interval 1000 cb)) /\
  (size (timers s) <= 2)%nat.
Proof.
  intros s. pose proof (timers_ok_reachable es) as H. fold s in H.
  split; [exact (ok_interval _ H)|]. split; [exact (ok_timeout _ H)|].
  split; [exact (ok_iref_live _ H)|].
  rewrite <- (size_dom (D := gset positive)).
  etrans; [apply subseteq_size, (refs_cover_timers s H)|].
  rewrite size_union_alt.
  assert (forall (o : option positive) (X : gset positive),
            (size ((match o with Some i => {[i]} | None => ∅ end : gset positive) ∖ X)
             <= 1)%nat) as Hle.
  { intros o X. etrans; [apply subseteq_size, subseteq_difference_l; reflexivity|].
    destruct o; [by rewrite size_singleton | rewrite size_empty; lia]. }
  assert (size (match intervalRef s with Some i => {[i]} | None => ∅ end : gset positive)
          <= 1)%nat as Hi.
  { destruct (intervalRef s); [by rewrite size_singleton | rewrite size_empty; lia]. }
  specialize (Hle (errorTimeoutRef s)
    (match intervalRef s with Some i => {[i]} | None => ∅ end)). lia.
Qed.

(** *** The start/stop button *)

(** X2. Whatever the state, also one in which handle and flag disagree, a
    press of the start/stop button leaves them in agreement: it clears a
    held timer and lowers the flag, or, with no timer held, starts one and
    raises the flag. *)
Theorem handleDraw_agrees (s : state) :
  polling_inv (handleDraw s) /\
  (is_Some (intervalRef (handleDraw s)) <-> intervalRef s = None) /\
  (isDrawing (handleDraw s) = true <-> intervalRef s = None).
Proof.
  split; [apply polling_inv_handleDraw|].
  unfold handleDraw. destruct (intervalRef s) as [i|]; simpl.
  - split; (split; [|discriminate]).
    + intros [x Hx]. discriminate Hx.
    + discriminate.
  - split; split; eauto.
Qed.

(** X3. In a reachable state where nothing is polling and the flag is
    down, starting and stopping again is a round trip: the timer table,
    both refs and every hook cell are as before; only the timer counter
    has moved on by one. *)
Theorem start_stop_roundtrip (es : list event) :
  let s := run es mounted in
  intervalRef s = None -> isDrawing s = false ->
  handleDraw (handleDraw s) = with_timers (timers s) (Pos.succ (next_timer s)) s.
Proof.
  intros s Hi Hd.
  pose proof (next_timer_free s (timers_ok_reachable es)) as Hfree.
  unfold handleDraw at 2. rewrite Hi. unfold handleDraw. simpl.
  rewrite delete_insert_eq, (delete_id _ _ Hfree).
  unfold with_timers. simpl. rewrite Hi, Hd. reflexivity.
Qed.

Lemma start_stop_roundtrip_witness :
  intervalRef ready52 = None /\ isDrawing ready52 = false /\
  timers (handleDraw (handleDraw ready52)) = timers ready52 /\
  isDrawing (handleDraw (handleDraw ready52)) = false.
Proof.
  split; [reflexivity|]. split; [reflexivity|].
  pose proof (start_stop_roundtrip [SettleDeck deck52] eq_refl eq_refl) as H.
  cbv zeta in H. fold ready52 in H. rewrite H. split; reflexivity.
Defined.

(** *** The handle and the flag over whole runs *)

Lemma polling_inv_settle k f s :
  (forall s0, polling_inv s0 -> polling_inv (f s0)) ->
  polling_inv s -> polling_inv (settle k f s).
Proof.
  intros Hf H. unfold settle. destruct (take k (inflight s)); [|done].
  apply Hf. exact H.
Qed.

Lemma polling_inv_step s e :
  malformed_draw e = false -> polling_inv s -> polling_inv (step s e).
Proof.
  intros He H. destruct e; simpl.
  - destruct (controls_rendered s); [apply polling_inv_handleDraw | done].
  - destruct (controls_rendered s && negb (isShuffling s)); done.
  - destruct (controls_rendered s); done.
  - destruct (timers s !! id) as [[d cb|d]|]; [|done..].
    by apply polling_inv_drawCard_start.
  - apply polling_inv_settle; [|done]. intros s0 H0.
    by apply (polling_inv_others s0 H0).
  - apply polling_inv_settle; [|done]. intros s0 H0.
    apply polling_inv_drawCard_resume; [|done].
    intros d -> Hc. simpl in He. rewrite Hc in He. discriminate He.
  - apply polling_inv_settle; [|done]. intros s0 H0.
    by apply (polling_inv_others s0 H0).
Qed.

Lemma handle_implies_flag_step s e :
  (forall id, intervalRef s = Some id -> isDrawing s = true) ->
  forall id, intervalRef (step s e) = Some id -> isDrawing (step s e) = true.
Proof.
  intros H.
  assert (Hfull : forall x, polling_inv x ->
            forall id, intervalRef x = Some id -> isDrawing x = true).
  { intros x [Hx _] id Hid. apply Hx. eauto. }
  assert (Herr : forall x id,
            intervalRef (schedule_hide (stop_polling x)) = Some id -> False).
  { intros x id.
    destruct (schedule_hide_frame (stop_polling x)) as (_&_&_&_&_&_&_&_&Hi&_).
    destruct (stop_polling_frame x) as (_&_&_&_&_&_&_&_&_&_&_&Hi').
    cbv zeta in *. rewrite Hi, Hi'. discriminate. }
  destruct e; simpl.
  - destruct (controls_rendered s); [|done].
    apply Hfull, polling_inv_handleDraw.
  - destruct (controls_rendered s && negb (isShuffling s)); done.
  - destruct (controls_rendered s); done.
  - destruct (timers s !! id) as [[d cb|d]|]; [|done..].
    rewrite drawCard_start_eq. destruct (c_remaining cb =? 0); [|done].
    unfold launch. intros id' Hid'. destruct (Herr _ _ Hid').
  - unfold settle. destruct (take KFetchDeck (inflight s)); [|done].
    by destruct r as [|[d|]].
  - unfold settle. destruct (take KDrawCard (inflight s)) as [ks|]; [|done].
    destruct r as [|[d|]]; [done| |done].
    destruct (cards d) as [[|c0 rest]|] eqn:Hc.
    + rewrite (drawCard_resume_empty _ _ Hc). intros id Hid. destruct (Herr _ _ Hid).
    + rewrite (drawCard_resume_success _ _ _ _ Hc). exact H.
    + rewrite (drawCard_resume_malformed _ _ Hc). intros id Hid. destruct (Herr _ _ Hid).
  - unfold settle. destruct (take KShuffleDeck (inflight s)); [|done].
    by destruct r as [|[d|]].
Qed.

(** *** What one event can change *)

(** Opens a state into its fields and the two refs into their cases, so
    that every projection of a handler's result computes. *)
Ltac open_state s :=
  let iref := fresh "iref" in
  let tref := fresh "tref" in
  destruct s as [? ? ? ? ? ? ? ? iref tref ? ? ? ?];
  destruct iref, tref; simpl in *.

Lemma take_waiting k ks ks' :
  take k ks = Some ks' ->
  waiting k ks = S (waiting k ks') /\
  forall k', kont_eqb k' k = false -> waiting k' ks' = waiting k' ks.
Proof.
  revert ks'. induction ks as [|a ks IH]; intros ks' H; simpl in *; [discriminate|].
  destruct (kont_eqb k a) eqn:Ha.
  - injection H as <-. split; [reflexivity|].
    intros k' Hk'. destruct k, a, k'; simpl in *; try discriminate; reflexivity.
  - destruct (take k ks) as [r|]; [|discriminate]. injection H as <-.
    destruct (IH r eq_refl) as [IH1 IH2]. simpl. rewrite Ha. split; [exact IH1|].
    intros k' Hk'. rewrite (IH2 k' Hk'). reflexivity.
Qed.

Lemma take_none k ks : take k ks = None -> waiting k ks = 0%nat.
Proof.
  induction ks as [|a ks IH]; simpl; [done|].
  destruct (kont_eqb k a); [discriminate|].
  destruct (take k ks); [discriminate|]. auto.
Qed.

Lemma waiting_app k ks k' :
  waiting k (ks ++ [k']) = (waiting k ks + (if kont_eqb k k' then 1 else 0))%nat.
Proof.
  induction ks as [|a ks IH]; simpl.
  - destruct (kont_eqb k k'); reflexivity.
  - destruct (kont_eqb k a); rewrite IH; reflexivity.
Qed.

(** The stored deck id changes only when the new-deck request resolves to
    a body. *)
Lemma step_deckId s e :
  deckId (step s e) = deckId s \/
  exists d ks, e = SettleDeck (Resolved (Some d)) /\
               take KFetchDeck (inflight s) = Some ks /\
               deckId (step s e) = Some (deck_id d).
Proof.
  destruct e; simpl.
  - left. destruct (controls_rendered s); [|done]. open_state s; reflexivity.
  - left. by destruct (controls_rendered s && negb (isShuffling s)).
  - left. by destruct (controls_rendered s).
  - left. destruct (timers s !! id) as [[d cb|d]|]; [|done..].
    unfold drawCard_start. destruct (c_remaining cb =? 0); [|done].
    open_state s; reflexivity.
  - unfold settle. destruct (take KFetchDeck (inflight s)) as [ks|] eqn:Hk; [|by left].
    destruct r as [|[d|]]; [by left| |by left]. right. by exists d, ks.
  - left. unfold settle. destruct (take KDrawCard (inflight s)) as [ks|]; [|done].
    destruct r as [|[d|]]; [done| |done]. unfold drawCard_resume.
    destruct (cards d) as [[|c0 rest]|]; open_state s; reflexivity.
  - left. unfold settle. destruct (take KShuffleDeck (inflight s)) as [ks|]; [|done].
    by destruct r as [|[d|]].
Qed.

(** A repeating timer of the next state was there before, unless the event
    is a press of the start button, which registers the [drawCard] of the
    current render. *)
Lemma interval_origin s e id d cb :
  timers (step s e) !! id = Some (Interval d cb) ->
  timers s !! id = Some (Interval d cb) \/
  (e = ClickDraw /\ controls_rendered s = true /\ cb = render s).
Proof.
  assert (Hins : forall (m : gmap positive timer) n z,
            <[n := Timeout z]> m !! id = Some (Interval d cb) ->
            m !! id = Some (Interval d cb)).
  { intros m n z [[_ [=]]|[_ H]]%lookup_insert_Some. exact H. }
  assert (Hdel : forall (m : gmap positive timer) n,
            delete n m !! id = Some (Interval d cb) -> m !! id = Some (Interval d cb)).
  { intros m n [_ H]%lookup_delete_Some. exact H. }
  destruct e; simpl.
  - destruct (controls_rendered s) eqn:Hc; [|by left].
    unfold handleDraw. destruct (intervalRef s); simpl.
    + intros H. left. eauto.
    + intros [[_ [= _ <-]]|[_ H]]%lookup_insert_Some; [by right | by left].
  - left. by destruct (controls_rendered s && negb (isShuffling s)).
  - left. by destruct (controls_rendered s).
  - intros H. left. destruct (timers s !! id0) as [[d0 cb0|d0]|]; [| |done].
    + unfold drawCard_start in H. destruct (c_remaining cb0 =? 0); [|done].
      open_state s; eauto.
    + simpl in H. eauto.
  - intros H. left. unfold settle in H.
    destruct (take KFetchDeck (inflight s)) as [ks|]; [|done].
    by destruct r as [|[d0|]].
  - intros H. left. unfold settle in H.
    destruct (take KDrawCard (inflight s)) as [ks|]; [|done].
    destruct r as [|[d0|]]; [done| |done]. unfold drawCard_resume in H.
    destruct (cards d0) as [[|c0 rest]|]; open_state s; eauto.
  - intros H. left. unfold settle in H.
    destruct (take KShuffleDeck (inflight s)) as [ks|]; [|done].
    by destruct r as [|[d0|]].
Qed.

(** An event issues at most one request: a tick of a live repeating timer
    whose closure saw a count other than 0 asks for a card of the closure's
    deck, a press of the enabled shuffle button asks to shuffle the stored
    deck, and nothing else asks for anything. *)
Lemma step_requests s e :
  requests (step s e) = requests s \/
  (exists id d cb, e = Fire id /\ timers s !! id = Some (Interval d cb) /\
     c_remaining cb <> 0 /\
     requests (step s e) = requests s ++ [draw_url (c_deckId cb)]) \/
  (e = ClickShuffle /\ controls_rendered s = true /\ isShuffling s = false /\
     requests (step s e) = requests s ++ [shuffle_url (deckId s)]).
Proof.
  destruct e; simpl.
  - left. destruct (controls_rendered s); [|done]. open_state s; reflexivity.
  - destruct (controls_rendered s) eqn:Hc; [|by left].
    destruct (isShuffling s) eqn:Hs; [by left|]. right. right. done.
  - left. by destruct (controls_rendered s).
  - destruct (timers s !! id) as [[d cb|d]|] eqn:Hid; [| |by left].
    + unfold drawCard_start. destruct (c_remaining cb =? 0) eqn:Hz.
      * left. open_state s; reflexivity.
      * right. left. exists id, d, cb. apply Z.eqb_neq in Hz. done.
    + by left.
  - left. unfold settle. destruct (take KFetchDeck (inflight s)) as [ks|]; [|done].
    by destruct r as [|[d|]].
  - left. unfold settle. destruct (take KDrawCard (inflight s)) as [ks|]; [|done].
    destruct r as [|[d|]]; [done| |done]. unfold drawCard_resume.
    destruct (cards d) as [[|c0 rest]|]; open_state s; reflexivity.
  - left. unfold settle. destruct (take KShuffleDeck (inflight s)) as [ks|]; [|done].
    by destruct r as [|[d|]].
Qed.

(** The waiting requests and the busy flag move together: a tick and a
    press of the shuffle button park one request, a settling request leaves,
    and the flag goes up with a shuffle request and down when one settles. *)
Lemma step_inflight s e :
  (inflight (step s e) = inflight s /\ isShuffling (step s e) = isShuffling s) \/
  (inflight (step s e) = inflight s ++ [KDrawCard] /\
   isShuffling (step s e) = isShuffling s) \/
  (isShuffling s = false /\ inflight (step s e) = inflight s ++ [KShuffleDeck] /\
   isShuffling (step s e) = true) \/
  (exists ks, take KFetchDeck (inflight s) = Some ks /\ inflight (step s e) = ks /\
     isShuffling (step s e) = isShuffling s) \/
  (exists ks, take KDrawCard (inflight s) = Some ks /\ inflight (step s e) = ks /\
     isShuffling (step s e) = isShuffling s) \/
  (exists ks, take KShuffleDeck (inflight s) = Some ks /\ inflight (step s e) = ks /\
     isShuffling (step s e) = false).
Proof.
  destruct e; simpl.
  - left. destruct (controls_rendered s); [|done]. open_state s; done.
  - destruct (controls_rendered s); [|by left].
    destruct (isShuffling s) eqn:Hs; [by left|]. right. right. left. done.
  - left. by destruct (controls_rendered s).
  - destruct (timers s !! id) as [[d cb|d]|]; [| |by left].
    + unfold drawCard_start. destruct (c_remaining cb =? 0).
      * left. open_state s; done.
      * right. left. done.
    + by left.
  - unfold settle. destruct (take KFetchDeck (inflight s)) as [ks|]; [|by left].
    right. right. right. left. exists ks. by destruct r as [|[d|]].
  - unfold settle. destruct (take KDrawCard (inflight s)) as [ks|]; [|by left].
    right. right. right. right. left. exists ks.
    destruct r as [|[d|]]; [done| |done]. unfold drawCard_resume.
    destruct (cards d) as [[|c0 rest]|]; open_state s; done.
  - unfold settle. destruct (take KShuffleDeck (inflight s)) as [ks|]; [|by left].
    right. right. right. right. right. exists ks. by destruct r as [|[d|]].
Qed.

Lemma controls_rendered_deck s :
  controls_rendered s = true -> exists d, deckId s = Some d /\ d <> EmptyString.
Proof.
  unfold controls_rendered. destruct (deckId s) as [[|a b]|]; try discriminate.
  intros _. by eexists.
Qed.

Lemma session_ok_mounted : session_ok mounted.
Proof.
  split; simpl.
  - lia.
  - intros H. by destruct H.
  - intros id d cb H. rewrite lookup_empty in H. discriminate H.
Qed.

Lemma session_ok_step s e : session_ok s -> session_ok (step s e).
Proof.
  intros [Hf Hd Hc].
  assert (Hnone : deckId s = None -> forall id d cb,
            timers s !! id <> Some (Interval d cb)).
  { intros Hn id d cb Hl. destruct (Hc _ _ _ Hl) as [_ Hcr].
    unfold controls_rendered in Hcr. rewrite Hn in Hcr. discriminate. }
  destruct (step_deckId s e) as [Hdk | (d0 & ks & -> & Hk & Hdk)].
  - (* the deck id is the same *)
    assert (Hcr : controls_rendered (step s e) = controls_rendered s).
    { unfold controls_rendered. by rewrite Hdk. }
    assert (Hw : (waiting KFetchDeck (inflight (step s e))
                  <= waiting KFetchDeck (inflight s))%nat).
    { destruct (step_inflight s e)
        as [[-> _]|[[-> _]|[(_ & -> & _)|[(ks&Hk&->&_)|[(ks&Hk&->&_)|(ks&Hk&->&_)]]]]];
        rewrite ?waiting_app; simpl; try lia.
      - destruct (take_waiting _ _ _ Hk) as [-> _]. lia.
      - destruct (take_waiting _ _ _ Hk) as [_ ->]; [lia | reflexivity].
      - destruct (take_waiting _ _ _ Hk) as [_ ->]; [lia | reflexivity]. }
    split.
    + lia.
    + rewrite Hdk. intros Hne. specialize (Hd Hne). lia.
    + intros id d cb Hl. rewrite Hdk, Hcr.
      destruct (interval_origin _ _ _ _ _ Hl) as [Hl0 | (_ & Hc0 & ->)]; [eauto|].
      split; [reflexivity | exact Hc0].
  - (* the deck arrives: until now there was none *)
    destruct (take_waiting _ _ _ Hk) as [Hw _].
    assert (Hn : deckId s = None).
    { destruct (deckId s) eqn:E; [|done]. assert (Some s0 <> None) as Hne by done.
      specialize (Hd Hne). lia. }
    assert (Hst : step s (SettleDeck (Resolved (Some d0)))
                  = fetchDeck_resume (Resolved (Some d0)) (with_network (requests s) ks s)).
    { simpl. unfold settle. by rewrite Hk. }
    rewrite Hst in *. simpl. split; simpl.
    + lia.
    + intros _. lia.
    + intros id d cb Hl. destruct (Hnone Hn _ _ _ Hl).
Qed.

Lemma session_ok_reachable es : session_ok (run es mounted).
Proof.
  assert (G : forall s, session_ok s -> session_ok (run es s)).
  { induction es as [|e es' IH]; intros s H; simpl; [done|].
    apply IH. by apply session_ok_step. }
  apply G, session_ok_mounted.
Qed.

(** *** The handle, the flag and the button *)

(** X4. One half of the polling invariant holds in every reachable state,
    whatever the server answers: while [intervalRef] holds a handle,
    [isDrawing] is true and the buttons are on screen, so the first button
    reads [Stop Drawing] whenever a timer is running.  Only the converse
    can fail. *)
Theorem handle_implies_flag (es : list event) (id : timer_id) :
  let s := run es mounted in
  intervalRef s = Some id ->
  isDrawing s = true /\
  exists p, controls (view s) = Some p /\ draw_label p = "Stop Drawing".
Proof.
  intros s Hid.
  assert (G : forall es0 s0,
            (forall i, intervalRef s0 = Some i -> isDrawing s0 = true) ->
            forall i, intervalRef (run es0 s0) = Some i -> isDrawing (run es0 s0) = true).
  { induction es0 as [|e es' IH]; intros s0 H0; simpl; [exact H0|].
    apply IH. by apply handle_implies_flag_step. }
  assert (Hd : isDrawing s = true).
  { apply (G es mounted) with id; [discriminate | exact Hid]. }
  split; [exact Hd|].
  destruct (ok_iref_live _ (timers_ok_reachable es) _ Hid) as [cb Hl].
  destruct (so_closure _ (session_ok_reachable es) _ _ _ Hl) as [_ Hc].
  fold s in Hc. unfold view. simpl. rewrite Hc.
  eexists. split; [reflexivity|]. simpl. by rewrite Hd.
Qed.

Lemma handle_implies_flag_witness :
  intervalRef (run banner_run mounted) = Some 3%positive /\
  isDrawing (run banner_run mounted) = true.
Proof.
  assert (H : intervalRef (run banner_run mounted) = Some 3%positive)
    by (vm_compute; reflexivity).
  split; [exact H|].
  exact (proj1 (handle_implies_flag banner_run 3%positive H)).
Defined.

(** X5. As long as no draw request has resolved to a body without
    [cards], the full polling invariant holds: the handle is set exactly
    when [isDrawing] is true. *)
Theorem polling_inv_without_malformed (es : list event) :
  forallb (fun e => negb (malformed_draw e)) es = true ->
  polling_inv (run es mounted).
Proof.
  assert (G : forall s, polling_inv s ->
            forallb (fun e => negb (malformed_draw e)) es = true ->
            polling_inv (run es s)).
  { induction es as [|e es' IH]; intros s H Hall; simpl in *; [exact H|].
    apply andb_prop in Hall as [He Hall]. apply negb_true_iff in He.
    apply IH; [|exact Hall]. by apply polling_inv_step. }
  apply G. apply polling_inv_stopped; reflexivity.
Qed.

Lemma polling_inv_without_malformed_witness :
  forallb (fun e => negb (malformed_draw e)) banner_run = true /\
  polling_inv (run banner_run mounted).
Proof.
  assert (H : forallb (fun e => negb (malformed_draw e)) banner_run = true)
    by (vm_compute; reflexivity).
  split; [exact H|].
  exact (polling_inv_without_malformed banner_run H).
Defined.

(** *** The session's deck *)

Lemma deckId_stable s e d :
  session_ok s -> deckId s = Some d -> deckId (step s e) = Some d.
Proof.
  intros Hs Hd.
  destruct (step_deckId s e) as [-> | (d0 & ks & _ & Hk & _)]; [exact Hd|].
  destruct (take_waiting _ _ _ Hk) as [Hw _].
  assert (deckId s <> None) as Hne by (rewrite Hd; done).
  pose proof (so_deck _ Hs Hne) as Hz. lia.
Qed.

Lemma session_url_step s e u :
  session_ok s -> session_url s u -> session_url (step s e) u.
Proof.
  intros Hs (d & Hd & Hne & Hu). exists d.
  split; [by apply deckId_stable | done].
Qed.

(** X6. The first request of every run is the one for a new deck, and
    every later request is a draw or a shuffle of the deck whose id is
    stored, an id that is not empty: no request is ever sent for a deck
    [null] or for a deck other than the session's.  Once a deck id is
    stored it never changes. *)
Theorem requests_target_session_deck (es : list event) :
  let s := run es mounted in
  (exists rest, requests s = new_deck_url :: rest /\ Forall (session_url s) rest) /\
  (forall e d, deckId s = Some d -> deckId (step s e) = Some d).
Proof.
  intros s. split.
  - subst s. induction es as [|e es' IH] using rev_ind.
    + exists []. split; [reflexivity | constructor].
    + unfold run in *. rewrite fold_left_app. simpl.
      set (s0 := fold_left step es' mounted) in *.
      pose proof (session_ok_reachable es') as Hs. change (run es' mounted) with s0 in Hs.
      destruct IH as (rest & Hreq & Hrest).
      assert (Hrest' : Forall (session_url (step s0 e)) rest).
      { eapply Forall_impl; [exact Hrest|]. intros u. by apply session_url_step. }
      destruct (step_requests s0 e)
        as [Heq | [(id & d & cb & _ & Hl & _ & Heq) | (_ & Hc0 & _ & Heq)]];
        rewrite Heq, Hreq.
      * exists rest. done.
      * exists (rest ++ [draw_url (c_deckId cb)]). split; [reflexivity|].
        apply Forall_app. split; [exact Hrest'|]. constructor; [|constructor].
        apply session_url_step; [exact Hs|].
        destruct (so_closure _ Hs _ _ _ Hl) as [Hcd Hc0].
        destruct (controls_rendered_deck s0 Hc0) as (d1 & Hd1 & Hne).
        exists d1. rewrite Hcd, Hd1. auto.
      * exists (rest ++ [shuffle_url (deckId s0)]). split; [reflexivity|].
        apply Forall_app. split; [exact Hrest'|]. constructor; [|constructor].
        apply session_url_step; [exact Hs|].
        destruct (controls_rendered_deck s0 Hc0) as (d1 & Hd1 & Hne).
        exists d1. rewrite Hd1. auto.
  - intros e d. apply deckId_stable, session_ok_reachable.
Qed.

Lemma waiting_zero_take k ks : waiting k ks = 0%nat -> take k ks = None.
Proof.
  induction ks as [|a ks IH]; simpl; [done|].
  destruct (kont_eqb k a); [discriminate|]. intros H. by rewrite (IH H).
Qed.

(** X7. If the new-deck request never resolves to a body (it is rejected,
    the body is [null], or it is still pending), the page stays empty
    whatever happens: no banner and no button is rendered, no timer exists,
    and no request beyond the first is sent.  In particular the failure to
    fetch a deck is never shown. *)
Theorem failed_init_inert (es : list event) :
  forallb (fun e => negb (deck_arrives e)) es = true ->
  let s := run es mounted in
  view s = {| banner := None; controls := None |} /\
  deckId s = None /\ timers s = ∅ /\ intervalRef s = None /\
  requests s = [new_deck_url].
Proof.
  intros Hall s.
  assert (G : forall s0,
            deckId s0 = None -> errorMessageVisible s0 = false -> timers s0 = ∅ ->
            intervalRef s0 = None -> requests s0 = [new_deck_url] ->
            waiting KDrawCard (inflight s0) = 0%nat ->
            waiting KShuffleDeck (inflight s0) = 0%nat ->
            let s1 := run es s0 in
            deckId s1 = None /\ errorMessageVisible s1 = false /\ timers s1 = ∅ /\
            intervalRef s1 = None /\ requests s1 = [new_deck_url]).
  { clear s. induction es as [|e es' IH]; intros s0 Hd Hv Ht Hi Hr Hw1 Hw2; simpl in *;
      [done|].
    apply andb_prop in Hall as [He Hall]. apply negb_true_iff in He.
    assert (Hc : controls_rendered s0 = false).
    { unfold controls_rendered. by rewrite Hd. }
    destruct e; simpl in *; rewrite ?Hc, ?Ht, ?lookup_empty; simpl; try by apply IH.
    - unfold settle. destruct (take KFetchDeck (inflight s0)) as [ks|] eqn:Hk;
        [|by apply IH].
      destruct (take_waiting _ _ _ Hk) as [_ Hoth].
      destruct r as [|[d|]]; [|discriminate He|];
        apply IH; simpl; try done; rewrite Hoth; done.
    - unfold settle. rewrite (waiting_zero_take _ _ Hw1). by apply IH.
    - unfold settle. rewrite (waiting_zero_take _ _ Hw2). by apply IH. }
  destruct (G mounted) as (Hd & Hv & Ht & Hi & Hr); try reflexivity.
  fold s in Hd, Hv, Ht, Hi, Hr.
  split; [|done]. unfold view, controls_rendered. by rewrite Hv, Hd.
Qed.

Lemma failed_init_inert_witness :
  forallb (fun e => negb (deck_arrives e))
    [SettleDeck Rejected; ClickDraw; ClickShuffle; Fire 1%positive] = true /\
  view (run [SettleDeck Rejected; ClickDraw; ClickShuffle; Fire 1%positive] mounted)
    = {| banner := None; controls := None |}.
Proof.
  assert (H : forallb (fun e => negb (deck_arrives e))
    [SettleDeck Rejected; ClickDraw; ClickShuffle; Fire 1%positive] = true)
    by (vm_compute; reflexivity).
  split; [exact H|].
  exact (proj1 (failed_init_inert _ H)).
Defined.

(** *** The banner *)

(** X8. When the pending hide timer fires in a reachable state, the banner
    leaves the screen while the error text stays stored, the timer leaves
    the table and no other one-shot timer is pending; the repeating timer,
    the polling handle and [isDrawing] are untouched. *)
Theorem hide_timer_fires (es : list event) (id : timer_id) (d : Z) :
  let s := run es mounted in
  timers s !! id = Some (Timeout d) ->
  let s' := step s (Fire id) in
  banner (view s') = None /\ error s' = error s /\
  timers s' = delete id (timers s) /\
  (forall j d', timers s' !! j <> Some (Timeout d')) /\
  intervalRef s' = intervalRef s /\ isDrawing s' = isDrawing s /\
  requests s' = requests s.
Proof.
  intros s Hl s'. subst s'. simpl. rewrite Hl. simpl.
  repeat (split; [reflexivity|]). split; [|done].
  intros j d' [Hne Hj]%lookup_delete_Some.
  apply Hne. symmetry.
  exact (one_timeout s _ _ _ _ (timers_ok_reachable es) Hj Hl).
Qed.

Lemma hide_timer_fires_witness :
  timers (run banner_run mounted) !! 2%positive = Some (Timeout 3000) /\
  banner (view (step (run banner_run mounted) (Fire 2%positive))) = None /\
  error (step (run banner_run mounted) (Fire 2%positive))
    = error (run banner_run mounted).
Proof.
  assert (Hl : timers (run banner_run mounted) !! 2%positive = Some (Timeout 3000))
    by (vm_compute; reflexivity).
  split; [exact Hl|].
  destruct (hide_timer_fires banner_run 2%positive 3000 Hl) as (H1 & H2 & _).
  split; [exact H1 | exact H2].
Defined.

(** X9. In a reachable state, a draw body without [cards] or with an empty
    [cards] puts its message on screen, stops the repeating timer, cancels
    the hide timer that was pending and arms a new one of 3000 ms, which is
    then the only one-shot timer: a new error supersedes the banner that is
    up and restarts its window. *)
Theorem draw_error_supersedes (es : list event) (data : draw_data) :
  cards data = None \/ cards data = Some [] ->
  let s := run es mounted in
  let s' := drawCard_resume (Resolved (Some data)) s in
  banner (view s') =
    Some (Some (match cards data with
                | None => "Error: Invalid API response."
                | Some _ => "Error: No cards available."
                end)) /\
  intervalRef s' = None /\ no_interval s' /\ hide_scheduled s' /\
  (forall old, errorTimeoutRef s = Some old ->
               timers s' !! old = None /\ errorTimeoutRef s' <> Some old).
Proof.
  intros Hc s s'. pose proof (timers_ok_reachable es) as Hok. fold s in Hok.
  destruct (drawCard_resume_errors data s Hok) as [Hm He].
  assert (Hold : forall x old,
            timers_ok x -> errorTimeoutRef x = Some old ->
            timers (schedule_hide (stop_polling x)) !! old = None /\
            errorTimeoutRef (schedule_hide (stop_polling x)) <> Some old).
  { intros x old Hx Ho. pose proof (ok_tref_fresh _ Hx _ Ho) as Hlt.
    open_state x; try discriminate Ho; injection Ho as <-.
    - split; [|intros [= E]; lia].
      rewrite lookup_insert_ne by lia. apply lookup_delete_eq.
    - split; [|intros [= E]; lia].
      rewrite lookup_insert_ne by lia. apply lookup_delete_eq. }
  destruct Hc as [Hc|Hc].
  - destruct (Hm Hc) as (H1 & H2 & [H3 H3'] & H4 & _). fold s' in H1, H2, H3, H3', H4.
    rewrite Hc. split; [unfold view; simpl; by rewrite H3, H3'|].
    split; [exact H1|]. split; [exact H2|]. split; [exact H4|].
    intros old Ho. subst s'. rewrite (drawCard_resume_malformed _ _ Hc).
    apply Hold; [hooks_only | exact Ho].
  - destruct (He Hc) as (H1 & H2 & [H3 H3'] & H4 & _). fold s' in H1, H2, H3, H3', H4.
    rewrite Hc. split; [unfold view; simpl; by rewrite H3, H3'|].
    split; [exact H1|]. split; [exact H2|]. split; [exact H4|].
    intros old Ho. subst s'. rewrite (drawCard_resume_empty _ _ Hc).
    apply Hold; [hooks_only | exact Ho].
Qed.

Lemma draw_error_supersedes_witness :
  (cards no_cards_field = None \/ cards no_cards_field = Some []) /\
  banner (view (drawCard_resume (Resolved (Some no_cards_field)) (run banner_run mounted)))
    = Some (Some "Error: Invalid API response.") /\
  intervalRef (drawCard_resume (Resolved (Some no_cards_field)) (run banner_run mounted))
    = None.
Proof.
  split; [left; reflexivity|].
  destruct (draw_error_supersedes banner_run no_cards_field (or_introl eq_refl))
    as (H1 & H2 & _).
  split; [exact H1 | exact H2].
Defined.

(** X10. The [catch] blocks of the three handlers (a rejected promise and a
    [null] body end there alike) replace the stored error text and never
    touch the visibility flag or a timer.  On screen that means: no banner
    appears if none was up, and a banner that is up changes its text at
    once while its pending hide timer is neither cancelled nor renewed.
    Automatic drawing goes on, and a failed shuffle lowers the busy flag. *)
Theorem failure_keeps_banner (s : state) :
  (forall r, failed r ->
     let s' := fetchDeck_resume r s in
     banner (view s') = (if errorMessageVisible s then Some (Some "Failed to fetch deck.")
                         else None) /\
     timers s' = timers s /\ errorTimeoutRef s' = errorTimeoutRef s /\
     deckId s' = deckId s /\ remaining s' = remaining s) /\
  (forall r, failed r ->
     let s' := drawCard_resume r s in
     banner (view s') = (if errorMessageVisible s then Some (Some "Failed to draw card.")
                         else None) /\
     timers s' = timers s /\ errorTimeoutRef s' = errorTimeoutRef s /\
     intervalRef s' = intervalRef s /\ isDrawing s' = isDrawing s /\
     cardImage s' = cardImage s /\ remaining s' = remaining s) /\
  (forall r, failed r ->
     let s' := shuffleDeck_resume r s in
     banner (view s') = (if errorMessageVisible s then Some (Some "Failed to shuffle deck.")
                         else None) /\
     timers s' = timers s /\ errorTimeoutRef s' = errorTimeoutRef s /\
     isShuffling s' = false /\
     cardImage s' = cardImage s /\ remaining s' = remaining s).
Proof.
  split; [|split]; intros r [-> | ->]; unfold view; simpl; auto 10.
Qed.

(** *** Timer handles *)

Lemma keeps_refl id x : keeps id x x.
Proof. split; [lia | by left]. Qed.

Lemma keeps_same id x y :
  timers y = timers x -> next_timer y = next_timer x -> keeps id x y.
Proof. intros Ht Hn. unfold keeps. rewrite Ht, Hn. split; [lia | by left]. Qed.

Lemma keeps_trans id x y z : keeps id x y -> keeps id y z -> keeps id x z.
Proof.
  intros [H1 H2] [H3 H4]. split; [lia|]. intros Hlt.
  assert (Hlt' : (id < next_timer y)%positive) by lia.
  destruct (H2 Hlt) as [E|E], (H4 Hlt') as [E'|E']; rewrite E'; auto.
Qed.

(** Settles a [keeps] goal on a state opened into its fields. *)
Ltac keeps_solve id :=
  split; [lia|]; intros ?;
  rewrite ?lookup_insert_ne by lia;
  repeat match goal with
  | |- context [delete ?a ?m !! id] =>
      destruct (decide (id = a)) as [->|];
      [rewrite lookup_delete_eq; by right | rewrite lookup_delete_ne by done]
  end;
  by left.

Lemma keeps_step id s e : keeps id s (step s e).
Proof.
  destruct e; simpl.
  - destruct (controls_rendered s); [|by apply keeps_same].
    unfold handleDraw, keeps. open_state s; keeps_solve id.
  - destruct (controls_rendered s && negb (isShuffling s)); by apply keeps_same.
  - destruct (controls_rendered s); by apply keeps_same.
  - destruct (timers s !! id0) as [[d cb|d]|]; [| |by apply keeps_same].
    + unfold drawCard_start. destruct (c_remaining cb =? 0); [|by apply keeps_same].
      unfold keeps. open_state s; keeps_solve id.
    + unfold keeps. simpl. keeps_solve id.
  - unfold settle. destruct (take KFetchDeck (inflight s)); [|by apply keeps_same].
    destruct r as [|[d|]]; by apply keeps_same.
  - unfold settle. destruct (take KDrawCard (inflight s)); [|by apply keeps_same].
    destruct r as [|[d|]]; [by apply keeps_same| |by apply keeps_same].
    unfold drawCard_resume, keeps.
    destruct (cards d) as [[|c0 rest]|]; open_state s; keeps_solve id.
  - unfold settle. destruct (take KShuffleDeck (inflight s)); [|by apply keeps_same].
    destruct r as [|[d|]]; by apply keeps_same.
Qed.

Lemma keeps_run id es s : keeps id s (run es s).
Proof.
  revert s. induction es as [|e es' IH]; intros s; simpl; [apply keeps_refl|].
  eapply keeps_trans; [apply keeps_step | apply IH].
Qed.

(** *** Ticks of the repeating timer *)

(** X12. The timer started by a press of the start button calls the
    [drawCard] of the render in which the button was pressed, for as long
    as it lives.  If that render saw a count other than 0, every tick
    sends a draw request for that render's deck and changes nothing else,
    whatever the stored count has become since, also when it is 0: the
    check of line 43 never sees a count the server reported later. *)
Theorem tick_uses_captured_render (s0 : state) (es : list event) :
  controls_rendered s0 = true -> intervalRef s0 = None -> remaining s0 <> 0 ->
  let id := next_timer s0 in
  let s := run es (step s0 ClickDraw) in
  is_Some (timers s !! id) ->
  timers s !! id = Some (Interval 1000 (render s0)) /\
  step s (Fire id) =
    with_network (requests s ++ [draw_url (deckId s0)]) (inflight s ++ [KDrawCard]) s.
Proof.
  intros Hc Hi Hr id s [t Ht].
  assert (H1 : timers (step s0 ClickDraw) !! id = Some (Interval 1000 (render s0))).
  { simpl. rewrite Hc. unfold handleDraw. rewrite Hi. simpl. apply lookup_insert_eq. }
  assert (Hn : (id < next_timer (step s0 ClickDraw))%positive).
  { simpl. rewrite Hc. unfold handleDraw. rewrite Hi. simpl. subst id. lia. }
  destruct (keeps_run id es (step s0 ClickDraw)) as [_ Hk].
  destruct (Hk Hn) as [E|E]; fold s in E; [|rewrite E in Ht; discriminate Ht].
  rewrite H1 in E. split; [exact E|].
  simpl. rewrite E. unfold drawCard_start. simpl.
  apply Z.eqb_neq in Hr. rewrite Hr. reflexivity.
Qed.

Lemma tick_uses_captured_render_witness :
  controls_rendered ready52 = true /\ intervalRef ready52 = None /\
  remaining ready52 <> 0 /\
  remaining (run [Fire 1%positive; SettleDraw (Resolved (Some last_card))]
               (step ready52 ClickDraw)) = 0 /\
  step (run [Fire 1%positive; SettleDraw (Resolved (Some last_card))]
          (step ready52 ClickDraw)) (Fire (next_timer ready52)) =
  with_network
    (requests (run [Fire 1%positive; SettleDraw (Resolved (Some last_card))]
                 (step ready52 ClickDraw)) ++ [draw_url (deckId ready52)])
    (inflight (run [Fire 1%positive; SettleDraw (Resolved (Some last_card))]
                 (step ready52 ClickDraw)) ++ [KDrawCard])
    (run [Fire 1%positive; SettleDraw (Resolved (Some last_card))]
       (step ready52 ClickDraw)).
Proof.
  assert (Hc : controls_rendered ready52 = true) by (vm_compute; reflexivity).
  assert (Hi : intervalRef ready52 = None) by (vm_compute; reflexivity).
  assert (Hr : remaining ready52 <> 0) by (vm_compute; discriminate).
  split; [exact Hc|]. split; [exact Hi|]. split; [exact Hr|].
  split; [vm_compute; reflexivity|].
  assert (Hs : is_Some (timers (run [Fire 1%positive; SettleDraw (Resolved (Some last_card))]
                                  (step ready52 ClickDraw)) !! next_timer ready52)).
  { exists (Interval 1000 (render ready52)). vm_compute. reflexivity. }
  exact (proj2 (tick_uses_captured_render ready52 _ Hc Hi Hr Hs)).
Defined.

(** *** The count *)

(** X13. [remaining] is never computed by the component: after any run
    from any state it is the value it had at the start or the [remaining]
    field of a body that one of the events of the run delivered. *)
Theorem remaining_from_responses (es : list event) (s : state) :
  remaining (run es s) = remaining s \/
  exists e v, e ∈ es /\ body_remaining e = Some v /\ remaining (run es s) = v.
Proof.
  induction es as [|e es' IH] using rev_ind; [by left|].
  unfold run in *. rewrite fold_left_app. simpl.
  set (s1 := fold_left step es' s) in *.
  destruct (remaining_step s1 e) as [E|E].
  - rewrite E. destruct IH as [IH|(e0 & v & Hin & Hb & Hv)]; [by left|].
    right. exists e0, v. split; [|done]. apply elem_of_app. by left.
  - right. destruct e as [| | | |[|[d|]]|[|[d|]]|[|[d|]]]; simpl in E; try contradiction.
    + exists (SettleDeck (Resolved (Some d))), (deck_remaining d).
      split; [|done]. apply elem_of_app. right. by apply list_elem_of_singleton.
    + exists (SettleDraw (Resolved (Some d))), (draw_remaining d).
      split; [|done]. apply elem_of_app. right. by apply list_elem_of_singleton.
    + exists (SettleShuffle (Resolved (Some d))), (shuffle_remaining d).
      split; [|done]. apply elem_of_app. right. by apply list_elem_of_singleton.
Qed.

(** *** The shuffle button *)

(** X14. The busy flag is true exactly while a shuffle request is
    waiting, and at most one is: in every reachable state the number of
    waiting shuffle requests is 1 if [isShuffling] and 0 otherwise, and a
    press of the shuffle button while the flag is up does nothing. *)
Theorem one_shuffle_in_flight (es : list event) :
  let s := run es mounted in
  waiting KShuffleDeck (inflight s) = (if isShuffling s then 1 else 0)%nat /\
  (isShuffling s = true -> step s ClickShuffle = s).
Proof.
  intros s. split.
  - subst s. induction es as [|e es' IH] using rev_ind; [reflexivity|].
    unfold run in *. rewrite fold_left_app. simpl.
    set (s1 := fold_left step es' mounted) in *.
    destruct (step_inflight s1 e)
      as [[-> ->]|[[-> ->]|[(Hs & -> & ->)|[(ks&Hk&->&->)|[(ks&Hk&->&->)|(ks&Hk&->&->)]]]]];
      rewrite ?waiting_app; simpl.
    + exact IH.
    + rewrite IH. lia.
    + rewrite IH, Hs. reflexivity.
    + destruct (take_waiting _ _ _ Hk) as [_ ->]; [exact IH | reflexivity].
    + destruct (take_waiting _ _ _ Hk) as [_ ->]; [exact IH | reflexivity].
    + destruct (take_waiting _ _ _ Hk) as [Hw _]. rewrite Hw in IH.
      destruct (isShuffling s1); [lia | discriminate IH].
  - intros Hs. simpl. rewrite Hs, andb_false_r. reflexivity.
Qed.

(** *** Idle *)

Lemma step_intervalRef s e :
  is_click_draw e = false ->
  intervalRef s = None -> intervalRef (step s e) = None.
Proof.
  intros He Hi. destruct e; simpl; try discriminate He.
  - by destruct (controls_rendered s && negb (isShuffling s)).
  - by destruct (controls_rendered s).
  - destruct (timers s !! id) as [[d cb|d]|]; [|done..].
    unfold drawCard_start. destruct (c_remaining cb =? 0); [|done].
    open_state s; done.
  - unfold settle. destruct (take KFetchDeck (inflight s)); [|done].
    by destruct r as [|[d|]].
  - unfold settle. destruct (take KDrawCard (inflight s)); [|done].
    destruct r as [|[d|]]; [done| |done]. unfold drawCard_resume.
    destruct (cards d) as [[|c0 rest]|]; open_state s; done.
  - unfold settle. destruct (take KShuffleDeck (inflight s)); [|done].
    by destruct r as [|[d|]].
Qed.

(** X15. While nothing is polling and the start button is not pressed,
    nothing starts polling and no card is asked for: from a reachable state
    with no handle held, any run without a press of that button ends with
    no handle held, and the only requests it adds are shuffles. *)
Theorem idle_stays_idle (es0 es : list event) :
  let s := run es0 mounted in
  intervalRef s = None ->
  forallb (fun e => negb (is_click_draw e)) es = true ->
  intervalRef (run es s) = None /\
  exists rest, requests (run es s) = requests s ++ rest /\
               Forall (fun u => exists d, u = shuffle_url (Some d)) rest.
Proof.
  intros s Hi Hall.
  pose proof (timers_ok_reachable es0) as Hok. fold s in Hok. clearbody s.
  revert s Hi Hok. induction es as [|e es' IH]; intros s Hi Hok; simpl in *.
  { split; [exact Hi|]. exists []. by rewrite app_nil_r. }
  apply andb_prop in Hall as [He Hall]. apply negb_true_iff in He.
  destruct (IH Hall (step s e) (step_intervalRef s e He Hi) (timers_ok_step s e Hok))
    as (Hi' & rest & Hreq & Hrest).
  split; [exact Hi'|]. rewrite Hreq.
  destruct (step_requests s e)
    as [-> | [(id & d & cb & _ & Hl & _) | (_ & Hc0 & _ & ->)]].
  - by exists rest.
  - destruct (ok_interval _ Hok _ _ _ Hl) as [Hx _]. rewrite Hi in Hx. discriminate Hx.
  - exists (shuffle_url (deckId s) :: rest). split; [by rewrite <- app_assoc|].
    constructor; [|exact Hrest].
    destruct (controls_rendered_deck s Hc0) as (d1 & -> & _). by exists d1.
Qed.

Lemma idle_stays_idle_witness :
  intervalRef (run [SettleDeck deck52] mounted) = None /\
  forallb (fun e => negb (is_click_draw e))
    [ClickShuffle; ClickSpeed; Fire 1%positive] = true /\
  intervalRef (run [ClickShuffle; ClickSpeed; Fire 1%positive]
                 (run [SettleDeck deck52] mounted)) = None.
Proof.
  assert (Hi : intervalRef (run [SettleDeck deck52] mounted) = None)
    by (vm_compute; reflexivity).
  assert (Ha : forallb (fun e => negb (is_click_draw e))
                 [ClickShuffle; ClickSpeed; Fire 1%positive] = true)
    by (vm_compute; reflexivity).
  split; [exact Hi|]. split; [exact Ha|].
  exact (proj1 (idle_stays_idle [SettleDeck deck52] _ Hi Ha)).
Defined.

(** *** The first screen *)

Lemma before_deck_settles (es : list event) :
  forallb (fun e => negb (is_settle_deck e)) es = true -> run es mounted = mounted.
Proof.
  induction es as [|e es' IH]; intros Hall; simpl in *; [reflexivity|].
  apply andb_prop in Hall as [He Hall].
  assert (Hst : step mounted e = mounted).
  { destruct e; try reflexivity; discriminate He. }
  rewrite Hst. by apply IH.
Qed.

(** X16. Until the new-deck request settles nothing the user does has any
    effect.  When it then resolves to a body, the deck id and the count of
    that body are stored, and the first screen with controls is always the
    same: no banner, [Start Drawing], an enabled shuffle button, [Fast
    Shuffle], no card, and the count of the body; a body whose deck id is
    the empty string leaves the page without controls. *)
Theorem first_screen (es : list event) (d : deck_data) :
  forallb (fun e => negb (is_settle_deck e)) es = true ->
  run es mounted = mounted /\
  let s := run (es ++ [SettleDeck (Resolved (Some d))]) mounted in
  deckId s = Some (deck_id d) /\ remaining s = deck_remaining d /\
  inflight s = [] /\
  view s = {| banner := None;
              controls :=
                match deck_id d with
                | EmptyString => None
                | String _ _ =>
                    Some {| draw_label := "Start Drawing"; shuffle_disabled := false;
                            speed_label := "Fast Shuffle"; card_shown := None;
                            remaining_shown := deck_remaining d |}
                end |}.
Proof.
  intros Hall. pose proof (before_deck_settles es Hall) as Hm.
  split; [exact Hm|].
  unfold run in *. rewrite fold_left_app, Hm. simpl.
  repeat (split; [reflexivity|]).
  unfold view, controls_rendered. simpl. destruct (deck_id d); reflexivity.
Qed.

Lemma first_screen_witness :
  forallb (fun e => negb (is_settle_deck e)) [ClickDraw; Fire 1%positive; ClickShuffle] = true /\
  run [ClickDraw; Fire 1%positive; ClickShuffle] mounted = mounted.
Proof.
  assert (H : forallb (fun e => negb (is_settle_deck e))
                [ClickDraw; Fire 1%positive; ClickShuffle] = true)
    by (vm_compute; reflexivity).
  split; [exact H|].
  exact (proj1 (first_screen _ {| deck_id := "abc"; deck_remaining := 52 |} H)).
Defined.
